(** * PDFbhai: the page-composition and document-assembly pipeline

  A shallow embedding of [services/pdfService.ts]: the per-pixel ink-saver
  filter ([applyFiltersToContext]), the rotation-aware canvas set-up of
  [processPageImage], and the N-up assembler [generateFinalPdf].

  JavaScript numbers are IEEE-754 binary64 values, so they are modelled by
  Rocq's primitive floats, which implement the same format with the same
  rounding.  Samples of an [ImageData] buffer (a [Uint8ClampedArray]) are
  integers; a store into the buffer goes through [ToUint8Clamp]. *)

From Stdlib Require Import ZArith List Bool Lia String.
From Stdlib Require Import Floats Uint63.
From stdpp Require Import base option list gmap strings.
Import ListNotations.

Set Warnings "-inexact-float".
#[local] Open Scope Z_scope.

(** ** JavaScript numbers *)

Module JS.

(** An integer used as a Number (array lengths, loop counters, samples).
    Exact below 2^53. *)
Definition num (z : Z) : float :=
  if z <? 0 then (- PrimFloat.of_uint63 (Uint63.of_Z (- z)))%float
  else PrimFloat.of_uint63 (Uint63.of_Z z).

(** The sign of a zero, to tell [+0] from [-0]. *)
Definition is_neg_zero (x : float) : bool :=
  match Prim2SF x with
  | S754_zero true => true
  | _ => false
  end.

(** [Math.max(a, b)]: NaN if either argument is NaN, [+0] above [-0]. *)
Definition Math_max (a b : float) : float :=
  if is_nan a || is_nan b then nan
  else if (a <? b)%float then b
  else if (b <? a)%float then a
  else if is_neg_zero a then b else a.

(** [Math.min(a, b)]: NaN if either argument is NaN, [-0] below [+0]. *)
Definition Math_min (a b : float) : float :=
  if is_nan a || is_nan b then nan
  else if (a <? b)%float then a
  else if (b <? a)%float then b
  else if is_neg_zero a then a else b.

(** The integer part and the position of the fraction relative to one half
    of the positive dyadic number [m * 2^e]. *)
Definition dyadic_floor (m : positive) (e : Z) : Z :=
  if 0 <=? e then Z.pos m * 2 ^ e else Z.pos m / 2 ^ (- e).

Definition dyadic_half (m : positive) (e : Z) : comparison :=
  if 0 <=? e then Lt
  else (2 * (Z.pos m mod 2 ^ (- e))) ?= 2 ^ (- e).

(** [ToUint8Clamp], the conversion applied by every store into a
    [Uint8ClampedArray]: NaN becomes 0, the number is clamped to
    [0, 255], and then rounded to the nearest integer, ties to even. *)
Definition ToUint8Clamp (x : float) : Z :=
  match Prim2SF x with
  | S754_nan => 0
  | S754_zero _ => 0
  | S754_infinity s => if s then 0 else 255
  | S754_finite true _ _ => 0
  | S754_finite false m e =>
      let f := dyadic_floor m e in
      if 255 <=? f then 255
      else match dyadic_half m e with
           | Lt => f
           | Gt => f + 1
           | Eq => if Z.even f then f else f + 1
           end
  end.

End JS.

(** ** Canvas sizes *)

Module DOM.

(** The conversion of a Number assigned to an [unsigned long] attribute
    such as [canvas.width]: NaN, the zeros and the infinities become 0, any
    other number loses its fraction (towards zero) and is reduced modulo
    2^32. *)
Definition ToUnsignedLong (x : float) : Z :=
  match Prim2SF x with
  | S754_finite s m e =>
      let n := JS.dyadic_floor m e in
      (if s then - n else n) mod 2 ^ 32
  | _ => 0
  end.

(** The number of pixels a canvas side gets from [x], when the converted
    number is one a canvas accepts (at most 2^31 - 1). *)
Definition inRange (x : float) : option Z :=
  let n := ToUnsignedLong x in
  if n <=? 2147483647 then Some n else None.

(** [canvas.width = x] and [canvas.height = x]: the side takes the converted
    number, or the attribute's default (300 for the width, 150 for the
    height) when the converted number is out of range. *)
Definition setSize (default : Z) (x : float) : Z :=
  match inRange x with
  | Some n => n
  | None => default
  end.

Definition setWidth : float -> Z := setSize 300.
Definition setHeight : float -> Z := setSize 150.

End DOM.

(** ** The ink-saver pixel filter ([applyFiltersToContext]) *)

Module Filter.

(** [PageItem['filters']]. *)
Record Filters := {
  invert : bool;
  grayscale : bool;
  whiteness : float;
  blackness : float
}.

Definition neutral : Filters :=
  {| invert := false; grayscale := false; whiteness := 0; blackness := 0 |}.

Definition invertOnly : Filters :=
  {| invert := true; grayscale := false; whiteness := 0; blackness := 0 |}.

(** What [ctx.getImageData(0, 0, width, height)] returns: a flat RGBA
    sample buffer. *)
Record ImageData := {
  width : Z;
  height : Z;
  data : list Z
}.

(** Reading [data[i]] as a Number.  Past the end the read is [undefined],
    which every arithmetic operator turns into NaN. *)
Definition sample (data : list Z) (i : nat) : float :=
  match data !! i with
  | Some v => JS.num v
  | None => nan
  end.

Definition RGB : Type := float * float * float.

(** The body of the loop up to the stores: the three values assigned to
    [data[i]], [data[i + 1]] and [data[i + 2]]. *)
Definition filterPixel (filters : Filters) (px : RGB) : RGB :=
  let '(r, g, b) := px in
  let brightnessMult := (1 + whiteness filters / 100)%float in
  let contrastMult := (1 + blackness filters / 100)%float in
  let intercept := (128 * (1 - contrastMult))%float in
  let '(r, g, b) :=
    if grayscale filters then
      let avg := (0.299 * r + 0.587 * g + 0.114 * b)%float in
      (avg, avg, avg)
    else (r, g, b) in
  let '(r, g, b) :=
    if invert filters then ((255 - r)%float, (255 - g)%float, (255 - b)%float)
    else (r, g, b) in
  let r := (r * brightnessMult)%float in
  let g := (g * brightnessMult)%float in
  let b := (b * brightnessMult)%float in
  let r := (r * contrastMult + intercept)%float in
  let g := (g * contrastMult + intercept)%float in
  let b := (b * contrastMult + intercept)%float in
  (JS.Math_min 255 (JS.Math_max 0 r),
   JS.Math_min 255 (JS.Math_max 0 g),
   JS.Math_min 255 (JS.Math_max 0 b)).

(** One iteration of [for (let i = 0; i < data.length; i += 4)].  Stores
    past the end of a typed array are ignored, as [<[_:=_]>] does. *)
Definition filterStep (filters : Filters) (data : list Z) (i : nat) : list Z :=
  let '(r, g, b) :=
    filterPixel filters (sample data i, sample data (i + 1), sample data (i + 2)) in
  let data := <[i := JS.ToUint8Clamp r]> data in
  let data := <[(i + 1)%nat := JS.ToUint8Clamp g]> data in
  <[(i + 2)%nat := JS.ToUint8Clamp b]> data.

(** The loop itself; [None] when the fuel runs out before the loop exits. *)
Fixpoint filterLoop (fuel : nat) (filters : Filters) (data : list Z) (i : nat)
  : option (list Z) :=
  if (length data <=? i)%nat then Some data
  else match fuel with
       | O => None
       | S fuel => filterLoop fuel filters (filterStep filters data i) (i + 4)
       end.

(** [applyFiltersToContext]: read the buffer, run the loop, write it back. *)
Definition applyFiltersToContext (img : ImageData) (filters : Filters)
  : option ImageData :=
  match filterLoop (length (data img)) filters (data img) 0 with
  | Some out => Some {| width := width img; height := height img; data := out |}
  | None => None
  end.

(** *** The transform as the specification words it

    Five steps on one pixel, each working on the result of the one before. *)

Definition mapRGB (h : float -> float) (px : RGB) : RGB :=
  let '(r, g, b) := px in (h r, h g, h b).

(** The channel [c] (0, 1 or 2) of a pixel. *)
Definition channel (c : nat) (px : RGB) : float :=
  let '(r, g, b) := px in
  match c with
  | O => r
  | S O => g
  | _ => b
  end.

Definition luma (px : RGB) : float :=
  let '(r, g, b) := px in (0.299 * r + 0.587 * g + 0.114 * b)%float.

Definition stepGrayscale (filters : Filters) (px : RGB) : RGB :=
  if grayscale filters then (luma px, luma px, luma px) else px.

Definition stepInvert (filters : Filters) (px : RGB) : RGB :=
  if invert filters then mapRGB (fun c => 255 - c)%float px else px.

Definition stepBrightness (filters : Filters) (px : RGB) : RGB :=
  mapRGB (fun c => c * (1 + whiteness filters / 100))%float px.

Definition stepContrast (filters : Filters) (px : RGB) : RGB :=
  mapRGB (fun c => c * (1 + blackness filters / 100)
                   + 128 * (1 - (1 + blackness filters / 100)))%float px.

Definition clamp (c : float) : float := JS.Math_min 255 (JS.Math_max 0 c).

Definition stepClamp (px : RGB) : RGB := mapRGB clamp px.

Definition specPixel (filters : Filters) (px : RGB) : RGB :=
  stepClamp (stepContrast filters (stepBrightness filters
    (stepInvert filters (stepGrayscale filters px)))).

(** What the loop does to one channel when [grayscale] is off. *)
Definition colorChannel (filters : Filters) (c : float) : float :=
  let c := if invert filters then (255 - c)%float else c in
  clamp (c * (1 + whiteness filters / 100) * (1 + blackness filters / 100)
         + 128 * (1 - (1 + blackness filters / 100)))%float.

(** A test on every sample value, 0 to 255. *)
Definition allSamples (test : Z -> bool) : bool :=
  forallb test (map Z.of_nat (seq 0 256)).

(** The pixel [p] of a buffer, as read by the loop at [i = 4 * p]. *)
Definition pixelAt (data : list Z) (p : nat) : RGB :=
  (sample data (4 * p), sample data (4 * p + 1), sample data (4 * p + 2)).

(** The buffer holds samples: integers of [0, 255]. *)
Definition samples (data : list Z) : Prop := Forall (fun v => 0 <= v <= 255) data.

(** The sample the loop leaves at channel [c] of pixel [p]: the alpha
    channel as it was, a colour channel filtered and stored. *)
Definition filteredAt (filters : Filters) (data : list Z) (p c : nat) : option Z :=
  match data !! (4 * p + c)%nat with
  | None => None
  | Some v =>
      if (c =? 3)%nat then Some v
      else Some (JS.ToUint8Clamp (channel c (filterPixel filters (pixelAt data p))))
  end.

End Filter.


(** ** The data model and the outcome of a call *)

Module Model.

(** Modelled from the spec: the declarations of [types.ts] ([PageItem],
    [UploadedFile], [LayoutSettings]) are not part of the sources at hand;
    the fields are the ones the service reads, with the types the spec's
    data model gives them. *)
Record PageItem := {
  id : string;
  fileId : string;
  originalPageIndex : Z;
  isSelected : bool;
  rotation : Z;
  filters : Filter.Filters;
  drawingDataUrl : option string
}.

(** What [loadPdfFile] returns; its [id] is [file_id] here. *)
Record UploadedFile := {
  file_id : string;
  name : string;
  size : Z;
  pageCount : Z;
  data : list Z
}.

(** Modelled from the spec: [LayoutSettings], whose declaration is in
    [types.ts] too; the service reads [nUp] (the pages per sheet) and
    [showBorders]. *)
Record LayoutSettings := {
  nUp : Z;
  showBorders : bool;
  showPageNumbers : bool
}.

(** How a call ends: with a value, with a thrown [Error], or never (a loop
    that does not exit). *)
Inductive Outcome (A : Type) : Type :=
| Return (a : A)
| Throw (msg : string)
| Diverge.

Arguments Return {A} a.
Arguments Throw {A} msg.
Arguments Diverge {A}.

(** What [renderPageToThumbnail] resolves to: the rendered page as a JPEG
    data URL, and [viewport.width] and [viewport.height], the page's size
    at the rendering scale.  These are Numbers and need not be whole: an A4
    page at scale 1.5 is 892.92 by 1262.835. *)
Record Thumbnail := {
  dataUrl : string;
  width : float;
  height : float
}.

(** A canvas: its size and its RGBA samples. *)
Record Canvas := {
  canvas_width : Z;
  canvas_height : Z;
  pixels : list Z
}.

(** An image embedded in the output document ([PDFImage]). *)
Record PDFImage := {
  image_width : float;
  image_height : float
}.

(** The calls made on the output-document encoder (pdf-lib). *)
Inductive EncoderCall : Type :=
| Create
| AddPage (w h : float)
| EmbedJpg (bytes : list Z)
| DrawImage (page : nat) (image : PDFImage) (x y w h : float)
| DrawRectangle (page : nat) (x y w h : float) (borderWidth : float)
    (borderColor : float * float * float)
| Save.

(** The collaborators the service calls and does not implement: pdf.js
    behind [renderPageToThumbnail], the browser's image decoder and 2D
    canvas, and pdf-lib.  [imageLoads src] tells whether an [Image] given
    this [src] fires [onload], the only event the service waits for. *)
Record Platform := {
  renderPageToThumbnail : list Z -> Z -> float -> Outcome Thumbnail;
  imageLoads : string -> bool;
  getContext2d : bool;
  drawImageRotated : Thumbnail -> Z -> Z -> Z -> list Z;
  drawDoodle : string -> Z -> float -> float -> Canvas -> list Z;
  toDataURL : Canvas -> float -> list Z;
  embedJpg : list Z -> Outcome PDFImage;
  save : list EncoderCall -> list Z
}.

End Model.

(** ** The page compositor ([processPageImage]) *)

Module Compositor.
Import Model.

Definition isRotated90or270 (pageItem : PageItem) : bool :=
  (rotation pageItem =? 90) || (rotation pageItem =? 270).

(** The size of the canvas [renderPageToThumbnail] rendered the page on
    ([canvas.height = viewport.height; canvas.width = viewport.width]): the
    pixel dimensions of the rasterized page. *)
Definition rasterSize (thumb : Thumbnail) : Z * Z :=
  (DOM.setWidth (width thumb), DOM.setHeight (height thumb)).

(** Step 3: the canvas is given the size of the rotated page and the page is
    drawn on it through the rotation. *)
Definition setupCanvas (P : Platform) (pageItem : PageItem) (thumb : Thumbnail)
  : Canvas :=
  let w := DOM.setWidth
             (if isRotated90or270 pageItem then height thumb else width thumb) in
  let h := DOM.setHeight
             (if isRotated90or270 pageItem then width thumb else height thumb) in
  {| canvas_width := w;
     canvas_height := h;
     pixels := drawImageRotated P thumb (rotation pageItem) w h |}.

(** A canvas with no pixels: [ctx.getImageData(0, 0, width, height)] throws
    an [IndexSizeError] when either side is 0. *)
Definition isEmpty (canvas : Canvas) : bool :=
  (canvas_width canvas =? 0) || (canvas_height canvas =? 0).

(** Step 4: [applyFiltersToContext(ctx, canvas.width, canvas.height, filters)]. *)
Definition applyFilters (canvas : Canvas) (f : Filter.Filters) : Outcome Canvas :=
  if isEmpty canvas then Throw "IndexSizeError"
  else
    match Filter.applyFiltersToContext
            {| Filter.width := canvas_width canvas;
               Filter.height := canvas_height canvas;
               Filter.data := pixels canvas |} f with
    | Some img =>
        Return {| canvas_width := canvas_width canvas;
                  canvas_height := canvas_height canvas;
                  pixels := Filter.data img |}
    | None => Diverge
    end.

(** [if (pageItem.drawingDataUrl)]: a string other than the empty one. *)
Definition hasDoodle (pageItem : PageItem) : option string :=
  match drawingDataUrl pageItem with
  | Some url => if String.eqb url EmptyString then None else Some url
  | None => None
  end.

(** Step 5: the doodle layer, drawn through the same rotation once its
    image has loaded; the wait has no other way out. *)
Definition applyDoodle (P : Platform) (pageItem : PageItem) (thumb : Thumbnail)
    (canvas : Canvas) : Outcome Canvas :=
  match hasDoodle pageItem with
  | Some url =>
      if imageLoads P url then
        Return
          {| canvas_width := canvas_width canvas;
             canvas_height := canvas_height canvas;
             pixels := drawDoodle P url (rotation pageItem) (width thumb)
                         (height thumb) canvas |}
      else Diverge
  | None => Return canvas
  end.

(** The canvas [processPageImage] holds when it encodes it. *)
Definition compositeCanvas (P : Platform) (files : gmap string UploadedFile)
    (pageItem : PageItem) : Outcome Canvas :=
  match files !! fileId pageItem with
  | None => Throw "TypeError: file is undefined"
  | Some file =>
      match renderPageToThumbnail P (data file) (originalPageIndex pageItem) 1.5%float with
      | Return thumb =>
          if imageLoads P (dataUrl thumb) then
            if getContext2d P then
              match applyFilters (setupCanvas P pageItem thumb) (filters pageItem) with
              | Return canvas => applyDoodle P pageItem thumb canvas
              | Throw msg => Throw msg
              | Diverge => Diverge
              end
            else Throw "Canvas context failed"
          else Diverge
      | Throw msg => Throw msg
      | Diverge => Diverge
      end
  end.

(** [processPageImage]: the JPEG bytes of the composited canvas. *)
Definition processPageImage (P : Platform) (files : gmap string UploadedFile)
    (pageItem : PageItem) : Outcome (list Z) :=
  match compositeCanvas P files pageItem with
  | Return canvas => Return (toDataURL P canvas 0.85%float)
  | Throw msg => Throw msg
  | Diverge => Diverge
  end.

End Compositor.

(** ** The document assembler ([generateFinalPdf]) *)

Module Assembler.
Import Model.

(** A computation that calls the encoder: it extends the log of calls made
    so far and ends in an [Outcome]. *)
Definition M (A : Type) : Type := list EncoderCall -> Outcome A * list EncoderCall.

Definition ret {A} (a : A) : M A := fun log => (Return a, log).

Definition bind {A B} (m : M A) (k : A -> M B) : M B :=
  fun log =>
    match m log with
    | (Return a, log') => k a log'
    | (Throw msg, log') => (Throw msg, log')
    | (Diverge, log') => (Diverge, log')
    end.

Definition throw {A} (msg : string) : M A := fun log => (Throw msg, log).

Definition diverge {A} : M A := fun log => (Diverge, log).

(** An encoder call without a result of interest. *)
Definition call (c : EncoderCall) : M unit := fun log => (Return tt, log ++ [c]).

(** A step that makes no encoder call. *)
Definition lift {A} (o : Outcome A) : M A := fun log => (o, log).

Notation "x <- m ;; k" := (bind m (fun x => k))
  (at level 100, m at next level, right associativity).
Notation "m ;;; k" := (bind m (fun _ => k))
  (at level 100, right associativity).

(** [for (const x of xs) body(x)]. *)
Fixpoint forOf {A} (xs : list A) (body : A -> M unit) : M unit :=
  match xs with
  | [] => ret tt
  | x :: rest => body x ;;; forOf rest body
  end.

(** [for (let i = i0; i < i0 + xs.length; i++) body(i, xs[i - i0])]. *)
Fixpoint forIndex {A} (i : Z) (xs : list A) (body : Z -> A -> M unit) : M unit :=
  match xs with
  | [] => ret tt
  | x :: rest => body i x ;;; forIndex (i + 1) rest body
  end.

(** The quotient of [k] by [n] rounded up, for [n >= 1]. *)
Definition ceilDiv (k n : Z) : Z := (k + n - 1) / n.

(** [Array.prototype.slice(start, end)] on integer arguments: a negative
    index counts from the end, and both are clipped to the array. *)
Definition sliceIndex (len idx : Z) : Z :=
  if idx <? 0 then Z.max (len + idx) 0 else Z.min idx len.

Definition slice {A} (l : list A) (start final : Z) : list A :=
  let len := Z.of_nat (length l) in
  let k := sliceIndex len start in
  let final := sliceIndex len final in
  take (Z.to_nat (final - k)) (drop (Z.to_nat k) l).

(** The N-up loop,
    [for (let i = 0; i < activePages.length; i += itemsPerPage)
       chunkedPages.push(activePages.slice(i, i + itemsPerPage))];
    [None] when the fuel runs out before the loop exits. *)
Fixpoint chunkLoop {A} (fuel : nat) (activePages : list A) (itemsPerPage : Z)
    (i : Z) (chunkedPages : list (list A)) : option (list (list A)) :=
  if i <? Z.of_nat (length activePages) then
    match fuel with
    | O => None
    | S fuel =>
        chunkLoop fuel activePages itemsPerPage (i + itemsPerPage)
          (chunkedPages ++ [slice activePages i (i + itemsPerPage)])
    end
  else Some chunkedPages.

Definition chunkPages {A} (activePages : list A) (itemsPerPage : Z)
  : option (list (list A)) :=
  chunkLoop (length activePages) activePages itemsPerPage 0 [].

(** A4 Standard Dimensions *)
Definition PAGE_WIDTH : float := 595.28.
Definition PAGE_HEIGHT : float := 841.89.
Definition MARGIN : float := 20.

(** The [switch (itemsPerPage)]: [(cols, rows)]. *)
Definition grid (itemsPerPage : Z) : Z * Z :=
  match itemsPerPage with
  | 1 => (1, 1)
  | 2 => (1, 2)
  | 3 => (1, 3)
  | 4 => (2, 2)
  | 5 => (2, 3)
  | 6 => (2, 3)
  | 7 => (2, 4)
  | 8 => (2, 4)
  | _ => (1, 1)
  end.

Definition cols (itemsPerPage : Z) : Z := fst (grid itemsPerPage).
Definition rows (itemsPerPage : Z) : Z := snd (grid itemsPerPage).

Definition cellWidth (itemsPerPage : Z) : float :=
  ((PAGE_WIDTH - (MARGIN * 2)) / JS.num (cols itemsPerPage))%float.

Definition cellHeight (itemsPerPage : Z) : float :=
  ((PAGE_HEIGHT - (MARGIN * 2)) / JS.num (rows itemsPerPage))%float.

(** [embeddedImage.scale(factor)] of pdf-lib. *)
Definition scale (image : PDFImage) (factor : float) : float * float :=
  ((image_width image * factor)%float, (image_height image * factor)%float).

(** Where the image of cell [i] is drawn: [(x, y, drawWidth, drawHeight)].
    The loop counter [i] is a small non-negative integer, on which [%] and
    [Math.floor(_ / _)] are the integer remainder and quotient. *)
Definition placeImage (itemsPerPage : Z) (i : Z) (image : PDFImage)
  : float * float * float * float :=
  let cellWidth := cellWidth itemsPerPage in
  let cellHeight := cellHeight itemsPerPage in
  let colIndex := i mod cols itemsPerPage in
  let rowIndex := i / cols itemsPerPage in
  let imgDims := scale image 1 in
  let scaleX := ((cellWidth - 10) / fst imgDims)%float in
  let scaleY := ((cellHeight - 10) / snd imgDims)%float in
  let scale := JS.Math_min scaleX scaleY in
  let drawWidth := (fst imgDims * scale)%float in
  let drawHeight := (snd imgDims * scale)%float in
  let x := (MARGIN + (JS.num colIndex * cellWidth) + (cellWidth - drawWidth) / 2)%float in
  let y := (PAGE_HEIGHT - MARGIN - ((JS.num rowIndex + 1) * cellHeight)
            + (cellHeight - drawHeight) / 2)%float in
  (x, y, drawWidth, drawHeight).

(** [page.drawImage(embeddedImage, { x, y, width: drawWidth, height: drawHeight })]. *)
Definition drawImageCall (page : nat) (itemsPerPage : Z) (i : Z) (image : PDFImage)
  : EncoderCall :=
  let '(x, y, drawWidth, drawHeight) := placeImage itemsPerPage i image in
  DrawImage page image x y drawWidth drawHeight.

(** The rectangle drawn around cell [i] when borders are shown. *)
Definition cellBorder (page : nat) (itemsPerPage : Z) (i : Z) : EncoderCall :=
  let cellWidth := cellWidth itemsPerPage in
  let cellHeight := cellHeight itemsPerPage in
  let colIndex := i mod cols itemsPerPage in
  let rowIndex := i / cols itemsPerPage in
  DrawRectangle page
    (MARGIN + (JS.num colIndex * cellWidth))%float
    (PAGE_HEIGHT - MARGIN - ((JS.num rowIndex + 1) * cellHeight))%float
    cellWidth cellHeight 1%float (0.8, 0.8, 0.8)%float.

(** The number of sheets added by the calls of a log. *)
Definition sheetsIn (log : list EncoderCall) : nat :=
  length (List.filter (fun c => match c with AddPage _ _ => true | _ => false end) log).

Section Assembly.

Variable P : Platform.
Variable files : gmap string UploadedFile.
Variable layout : LayoutSettings.

(** [pdfDoc.addPage([w, h])]: the new page is the last one of the document. *)
Definition addPage (w h : float) : M nat :=
  fun log => (Return (sheetsIn log), log ++ [AddPage w h]).

(** [pdfDoc.embedJpg(imageBytes)]. *)
Definition embed (imageBytes : list Z) : M PDFImage :=
  call (EmbedJpg imageBytes) ;;; lift (embedJpg P imageBytes).

(** The body of the inner loop, for cell [i] of the sheet [page]. *)
Definition drawCell (page : nat) (i : Z) (pageItem : PageItem) : M unit :=
  imageBytes <- lift (Compositor.processPageImage P files pageItem) ;;
  embeddedImage <- embed imageBytes ;;
  call (drawImageCall page (nUp layout) i embeddedImage) ;;;
  if showBorders layout then call (cellBorder page (nUp layout) i) else ret tt.

(** The body of the outer loop: one sheet per chunk. *)
Definition drawSheet (chunk : list PageItem) : M unit :=
  page <- addPage PAGE_WIDTH PAGE_HEIGHT ;;
  forIndex 0 chunk (drawCell page).

Definition activePages (pages : list PageItem) : list PageItem :=
  List.filter isSelected pages.

Definition generateFinalPdf (pages : list PageItem) : M (list Z) :=
  call Create ;;;
  let activePages := activePages pages in
  if (length activePages =? 0)%nat then throw "No pages selected"
  else
    match chunkPages activePages (nUp layout) with
    | None => diverge
    | Some chunkedPages =>
        forOf chunkedPages drawSheet ;;;
        call Save ;;;
        fun log => (Return (save P log), log)
    end.

End Assembly.

(** *** The layout as the specification words it *)

(** Step 4 of the assembler: the cell of index [i] in a grid of [cols] by
    [rows] cells on a sheet with a margin, and the image fitted in the cell
    less its inner padding, at one scale for both axes, centred, in the
    bottom-left-origin coordinates of the output:
    [(x, y, drawWidth, drawHeight)]. *)
Definition fitInCell (sheetWidth sheetHeight margin innerPadding : float)
    (cols rows i : Z) (imageWidth imageHeight : float)
  : float * float * float * float :=
  let cellWidth := ((sheetWidth - 2 * margin) / JS.num cols)%float in
  let cellHeight := ((sheetHeight - 2 * margin) / JS.num rows)%float in
  let row := i / cols in
  let col := i mod cols in
  let s := JS.Math_min ((cellWidth - innerPadding) / imageWidth)%float
                       ((cellHeight - innerPadding) / imageHeight)%float in
  let drawWidth := (imageWidth * s)%float in
  let drawHeight := (imageHeight * s)%float in
  let x := (margin + JS.num col * cellWidth + (cellWidth - drawWidth) / 2)%float in
  let y := (sheetHeight - margin - (JS.num row + 1) * cellHeight
            + (cellHeight - drawHeight) / 2)%float in
  (x, y, drawWidth, drawHeight).

(** The bounds of the cell of index [i], in the coordinates of the output:
    [(x, y, cellWidth, cellHeight)]. *)
Definition cellBounds (sheetWidth sheetHeight margin : float) (cols rows i : Z)
  : float * float * float * float :=
  let cellWidth := ((sheetWidth - 2 * margin) / JS.num cols)%float in
  let cellHeight := ((sheetHeight - 2 * margin) / JS.num rows)%float in
  let row := i / cols in
  let col := i mod cols in
  ((margin + JS.num col * cellWidth)%float,
   (sheetHeight - margin - (JS.num row + 1) * cellHeight)%float,
   cellWidth, cellHeight).

(** A call lays out on an A4 sheet with a margin of 20 and an inner padding
    of 10: a sheet added is 595.28 by 841.89, an image is drawn where
    [fitInCell] puts it for some cell, a border is drawn on the bounds of
    some cell. *)
Definition onA4 (itemsPerPage : Z) (c : EncoderCall) : Prop :=
  match c with
  | AddPage w h => w = 595.28%float /\ h = 841.89%float
  | DrawImage _ image x y w h =>
      exists i : Z,
        (x, y, w, h)
        = fitInCell 595.28 841.89 20 10 (cols itemsPerPage) (rows itemsPerPage) i
            (fst (scale image 1)) (snd (scale image 1))
  | DrawRectangle _ x y w h _ _ =>
      exists i : Z,
        (x, y, w, h)
        = cellBounds 595.28 841.89 20 (cols itemsPerPage) (rows itemsPerPage) i
  | _ => True
  end.

(** A computation keeps a property of the calls logged. *)
Definition keeps {A} (Q : EncoderCall -> Prop) (m : M A) : Prop :=
  forall log, Forall Q log -> Forall Q (snd (m log)).

End Assembler.

(** ** A fake platform and sample inputs

    Deterministic stand-ins for the rasterizer, the canvas and the encoder,
    to run the service on concrete inputs. *)

Module Fake.
Import Model.

(** What the fake rasterizer resolves to: a page whose viewport is 3.5 by
    2.25, rendered on a canvas of 3 by 2 pixels. *)
Definition thumbnail : Thumbnail :=
  {| dataUrl := "data:image/jpeg;base64,"; width := 3.5; height := 2.25 |}.

(** A rasterizer that renders every page as a 3 x 2 white bitmap, and a
    decoder that loads every image. *)
Definition platform : Platform :=
  {| renderPageToThumbnail := fun _ _ _ => Return thumbnail;
     imageLoads := fun _ => true;
     getContext2d := true;
     drawImageRotated := fun _ _ w h => repeat 255 (Z.to_nat (4 * w * h));
     drawDoodle := fun _ _ _ _ canvas => pixels canvas;
     toDataURL := fun canvas _ => [canvas_width canvas; canvas_height canvas];
     embedJpg := fun bytes =>
       match bytes with
       | [w; h] => Return {| image_width := JS.num w; image_height := JS.num h |}
       | _ => Throw "SOI not found in JPEG"
       end;
     save := fun log => [Z.of_nat (length log)] |}.

Definition file : UploadedFile :=
  {| file_id := "f1"; name := "notes.pdf"; size := 1024; pageCount := 9; data := [37; 80; 68; 70] |}.

Definition files : gmap string UploadedFile := {[ "f1" := file ]}.

Definition page (index : Z) (selected : bool) (rot : Z) : PageItem :=
  {| id := "p"; fileId := "f1"; originalPageIndex := index; isSelected := selected;
     rotation := rot; filters := Filter.neutral; drawingDataUrl := None |}.

Definition layout (n : Z) (borders : bool) : LayoutSettings :=
  {| nUp := n; showBorders := borders; showPageNumbers := false |}.

(** An A4 page (595.28 by 841.89 points) at the scale 1.5 the compositor
    asks for: a viewport of 892.92 by 1262.835, rendered on a canvas of 892
    by 1262 pixels. *)
Definition a4 : Thumbnail :=
  {| dataUrl := "data:image/jpeg;base64,";
     width := 595.28 * 1.5; height := 841.89 * 1.5 |}.

Definition a4Platform : Platform :=
  {| renderPageToThumbnail := fun _ _ _ => Return a4;
     imageLoads := imageLoads platform;
     getContext2d := getContext2d platform;
     drawImageRotated := drawImageRotated platform;
     drawDoodle := drawDoodle platform;
     toDataURL := toDataURL platform;
     embedJpg := embedJpg platform;
     save := save platform |}.

(** A page with a doodle on it. *)
Definition doodled (index : Z) (rot : Z) : PageItem :=
  {| id := "p"; fileId := "f1"; originalPageIndex := index; isSelected := true;
     rotation := rot; filters := Filter.neutral;
     drawingDataUrl := Some "data:image/png;base64,iVBORw0KGgo=" |}.

End Fake.

(** ** Reading a log of encoder calls *)

Module Log.
Import Model.


Definition isBorder (c : EncoderCall) : bool :=
  match c with
  | DrawRectangle _ _ _ _ _ _ _ => true
  | _ => false
  end.

Definition isSave (c : EncoderCall) : bool :=
  match c with
  | Save => true
  | _ => false
  end.

End Log.

(** ** The calls of a run that returns *)

Module Expected.
Import Model Assembler.

(** The calls made for one cell: the image is embedded, drawn, and framed
    when borders are shown. *)
Definition cellCalls (layout : LayoutSettings) (page : nat) (i : Z)
    (cell : list Z * PDFImage) : list EncoderCall :=
  [EmbedJpg (fst cell); drawImageCall page (nUp layout) i (snd cell)]
  ++ (if showBorders layout then [cellBorder page (nUp layout) i] else []).

(** The calls made for the cells of one sheet, from cell [i] on. *)
Fixpoint sheetCells (layout : LayoutSettings) (page : nat) (i : Z)
    (cells : list (list Z * PDFImage)) : list EncoderCall :=
  match cells with
  | [] => []
  | cell :: rest => cellCalls layout page i cell ++ sheetCells layout page (i + 1) rest
  end.

(** The calls made for the sheets of a document, from sheet [page] on. *)
Fixpoint documentCalls (layout : LayoutSettings) (page : nat)
    (sheets : list (list (list Z * PDFImage))) : list EncoderCall :=
  match sheets with
  | [] => []
  | cells :: rest =>
      AddPage PAGE_WIDTH PAGE_HEIGHT :: sheetCells layout page 0 cells
      ++ documentCalls layout (S page) rest
  end.

(** The page was composited to the JPEG of the cell and the JPEG embedded
    as the image of the cell. *)
Definition composed (P : Platform) (files : gmap string UploadedFile)
    (pageItem : PageItem) (cell : list Z * PDFImage) : Prop :=
  Compositor.processPageImage P files pageItem = Return (fst cell) /\
  embedJpg P (fst cell) = Return (snd cell).

(** A computation adds calls to the log and takes none away. *)
Definition grows {A} (m : M A) : Prop :=
  forall log, exists calls, snd (m log) = log ++ calls.

End Expected.

(** ** Filter configurations the dashboard produces *)

Module Config.
Import Filter.

Definition grayscaleOnly : Filters :=
  {| invert := false; grayscale := true; whiteness := 0; blackness := 0 |}.

(** The whiteness slider at [w], everything else neutral. *)
Definition brighten (w : Z) : Filters :=
  {| invert := false; grayscale := false; whiteness := JS.num w; blackness := 0 |}.

(** The blackness slider at [b], everything else neutral. *)
Definition contrast (b : Z) : Filters :=
  {| invert := false; grayscale := false; whiteness := 0; blackness := JS.num b |}.

(** A test on every position of a slider, [min="0" max="100"]. *)
Definition allSliderValues (test : Z -> bool) : bool :=
  forallb test (map Z.of_nat (seq 0 101)).

End Config.

(** ** The dashboard: the handlers that edit the pages and call the service *)

Module Dashboard.
Import Model.

(** [{ ...p, rotation: r }] and the like. *)
Definition withRotation (p : PageItem) (r : Z) : PageItem :=
  {| id := id p; fileId := fileId p; originalPageIndex := originalPageIndex p;
     isSelected := isSelected p; rotation := r; filters := filters p;
     drawingDataUrl := drawingDataUrl p |}.

Definition withSelected (p : PageItem) (b : bool) : PageItem :=
  {| id := id p; fileId := fileId p; originalPageIndex := originalPageIndex p;
     isSelected := b; rotation := rotation p; filters := filters p;
     drawingDataUrl := drawingDataUrl p |}.

Definition withFilters (p : PageItem) (f : Filter.Filters) : PageItem :=
  {| id := id p; fileId := fileId p; originalPageIndex := originalPageIndex p;
     isSelected := isSelected p; rotation := rotation p; filters := f;
     drawingDataUrl := drawingDataUrl p |}.

(** [rotateAll(deg)]; [%] is the remainder that takes the sign of the
    dividend. *)
Definition rotateAll (deg : Z) (pages : list PageItem) : list PageItem :=
  map (fun p => withRotation p (Z.rem (rotation p + deg + 360) 360)) pages.

(** [toggleSelectAll()]. *)
Definition toggleSelectAll (pages : list PageItem) : list PageItem :=
  let allSelected := forallb isSelected pages in
  map (fun p => withSelected p (negb allSelected)) pages.

(** [rotatePage(pageId)]. *)
Definition rotatePage (pageId : string) (pages : list PageItem) : list PageItem :=
  map (fun p =>
         if String.eqb (id p) pageId then
           let nextRotation := Z.rem (rotation p + 90) 360 in
           withRotation p nextRotation
         else p) pages.

(** [toggleSelect(pageId)]. *)
Definition toggleSelect (pageId : string) (pages : list PageItem) : list PageItem :=
  map (fun p => if String.eqb (id p) pageId then withSelected p (negb (isSelected p)) else p)
      pages.

(** The filters [toggleInkSaver] writes, for [!isCurrentlySaved = on]. *)
Definition inkSaver (on : bool) : Filter.Filters :=
  {| Filter.invert := on;
     Filter.grayscale := on;
     Filter.whiteness := if on then 12%float else 0%float;
     Filter.blackness := if on then 50%float else 0%float |}.

(** [toggleInkSaver()]: the first page decides; without a first page the
    read of [first.filters] throws. *)
Definition toggleInkSaver (pages : list PageItem) : Outcome (list PageItem) :=
  match pages with
  | [] => Throw "TypeError: first is undefined"
  | first :: _ =>
      let isCurrentlySaved := Filter.invert (filters first) in
      Return (map (fun p => withFilters p (inkSaver (negb isCurrentlySaved))) pages)
  end.

(** What the user sees of a download. *)
Inductive UiEvent : Type :=
| SetIsGenerating (b : bool)
| SaveAs (download : string) (type : string) (bytes : list Z)
| ConsoleError (msg : string)
| Alert (msg : string).

(** [handleDownload()]: the events, and whether the handler came to its
    end. *)
Definition handleDownload (P : Platform) (files : gmap string UploadedFile)
    (layout : LayoutSettings) (pages : list PageItem) : list UiEvent * bool :=
  match fst (Assembler.generateFinalPdf P files layout pages []) with
  | Return pdfBytes =>
      ([SetIsGenerating true;
        SaveAs "PDFbhai-Optimized.pdf" "application/pdf" pdfBytes;
        SetIsGenerating false], true)
  | Throw msg =>
      ([SetIsGenerating true;
        ConsoleError msg;
        Alert "Failed to generate PDF. Please try again.";
        SetIsGenerating false], true)
  | Diverge => ([SetIsGenerating true], false)
  end.

(** The classes of a cell of the on-screen sheet, [(widthClass, heightClass)]. *)
Definition previewClasses (nUp : Z) : string * string :=
  let widthClass := "w-full" in
  let heightClass := "h-full" in
  let heightClass := if nUp =? 2 then "h-1/2" else heightClass in
  let '(widthClass, heightClass) :=
    if nUp =? 4 then ("w-1/2", "h-1/2") else (widthClass, heightClass) in
  let '(widthClass, heightClass) :=
    if nUp =? 6 then ("w-1/2", "h-1/3") else (widthClass, heightClass) in
  let '(widthClass, heightClass) :=
    if nUp =? 8 then ("w-1/2", "h-1/4") else (widthClass, heightClass) in
  (widthClass, heightClass).

(** The share of the sheet a class gives a cell, as the number of cells that
    fit side by side: [w-full] one, [w-1/2] two, [h-1/3] three, ... *)
Definition cellsAcross (class : string) : Z :=
  if String.eqb class "w-1/2" then 2
  else if String.eqb class "h-1/2" then 2
  else if String.eqb class "h-1/3" then 3
  else if String.eqb class "h-1/4" then 4
  else 1.

(** The layouts the grid buttons offer, [[1, 2, 4, 6, 8].map(n => ...)]. *)
Definition offeredLayouts : list Z := [1; 2; 4; 6; 8].

(** A rotation a page can have. *)
Definition quarterTurn (r : Z) : Prop := r = 0 \/ r = 90 \/ r = 180 \/ r = 270.

End Dashboard.

(** ** The service worker *)

Module ServiceWorker.

Definition CACHE_NAME : string := "pdfbhai-v1".

(** A response, as far as the worker looks at it. *)
Record Response := {
  status : Z;
  type : string;
  body : list Z
}.

(** A cache maps a request, identified by its URL, to a response; the
    storage holds the named caches in the order of their creation. *)
Definition Cache : Type := gmap string Response.
Definition CacheStorage : Type := list (string * Cache).

(** [caches.keys()]. *)
Definition keys (storage : CacheStorage) : list string := map fst storage.

(** [caches.delete(cacheName)]. *)
Definition delete (cacheName : string) (storage : CacheStorage) : CacheStorage :=
  List.filter (fun entry => negb (String.eqb (fst entry) cacheName)) storage.

(** The activate handler: every cache whose name is not [CACHE_NAME] is
    deleted. *)
Definition activate (storage : CacheStorage) : CacheStorage :=
  fold_right
    (fun cacheName st => if negb (String.eqb cacheName CACHE_NAME) then delete cacheName st else st)
    storage (keys storage).

(** [caches.match(request)]: the first cache that holds the request
    answers. *)
Fixpoint cachesMatch (storage : CacheStorage) (url : string) : option Response :=
  match storage with
  | [] => None
  | (_, cache) :: rest =>
      match cache !! url with
      | Some response => Some response
      | None => cachesMatch rest url
      end
  end.

(** [caches.open(CACHE_NAME).then(cache => cache.put(request, response))]:
    the cache is created at the end of the storage when it is missing. *)
Fixpoint put (storage : CacheStorage) (url : string) (response : Response) : CacheStorage :=
  match storage with
  | [] => [(CACHE_NAME, {[ url := response ]})]
  | (cacheName, cache) :: rest =>
      if String.eqb cacheName CACHE_NAME then (cacheName, <[url := response]> cache) :: rest
      else (cacheName, cache) :: put rest url response
  end.

(** [networkResponse.status === 200 && networkResponse.type === 'basic']. *)
Definition cacheable (response : Response) : bool :=
  (status response =? 200) && String.eqb (type response) "basic".

(** The fetch handler once its promises have settled: what the page is
    answered, and the storage left behind.  The network answers a request
    with a response or fails. *)
Definition fetchHandler (network : string -> option Response) (storage : CacheStorage)
    (url : string) : option Response * CacheStorage :=
  match cachesMatch storage url with
  | Some cachedResponse =>
      let storage :=
        match network url with
        | Some networkResponse =>
            if cacheable networkResponse then put storage url networkResponse else storage
        | None => storage
        end in
      (Some cachedResponse, storage)
  | None =>
      match network url with
      | Some networkResponse =>
          if negb (cacheable networkResponse) then (Some networkResponse, storage)
          else (Some networkResponse, put storage url networkResponse)
      | None => (None, storage)
      end
  end.

(** A run of fetch events, each settled before the next one starts: the
    storage it leaves behind.  An event is the network as it is then and
    the request fetched. *)
Definition FetchEvent : Type := (string -> option Response) * string.

Definition fetchAll (events : list FetchEvent) (storage : CacheStorage) : CacheStorage :=
  fold_left (fun st event => snd (fetchHandler (fst event) st (snd event))) events storage.

(** A fetch event that cannot replace the response held for [url]: it
    fetches another request, or the network then fails, answers with a
    response the worker does not store, or answers with [response]
    again. *)
Definition bringsNothingNew (url : string) (response : Response) (event : FetchEvent) : Prop :=
  snd event = url ->
  forall fresh : Response,
    fst event url = Some fresh -> cacheable fresh = true -> fresh = response.

(** Every response held is one the worker would store. *)
Definition allCacheable (storage : CacheStorage) : Prop :=
  forall (url : string) (cacheName : string) (cache : Cache) (response : Response),
    In (cacheName, cache) storage -> cache !! url = Some response ->
    cacheable response = true.

End ServiceWorker.

(** * Properties *)

(** ** Stores into a [Uint8ClampedArray] *)

Module JSFacts.

Lemma dyadic_floor_nonneg (m : positive) (e : Z) : 0 <= JS.dyadic_floor m e.
Proof.
  unfold JS.dyadic_floor.
  destruct (0 <=? e) eqn:He.
  - apply Z.mul_nonneg_nonneg; [lia | apply Z.pow_nonneg; lia].
  - apply Z.div_pos; [lia | apply Z.pow_pos_nonneg; lia].
Qed.

Lemma ToUint8Clamp_range (x : float) : 0 <= JS.ToUint8Clamp x <= 255.
Proof.
  unfold JS.ToUint8Clamp.
  destruct (Prim2SF x) as [s | s | | s m e]; try lia.
  - destruct s; lia.
  - destruct s; [lia |].
    pose proof (dyadic_floor_nonneg m e) as Hf.
    destruct (255 <=? JS.dyadic_floor m e) eqn:Hle; [lia |].
    apply Z.leb_gt in Hle.
    destruct (JS.dyadic_half m e); [destruct (Z.even _) | |]; lia.
Qed.

(** *** The order of numbers, from the specification of binary64 *)

Lemma SFcompare_antisym (a b : spec_float) :
  SFcompare b a = option_map CompOpp (SFcompare a b).
Proof.
  destruct a as [sa | sa | | sa ma ea], b as [sb | sb | | sb mb eb];
    cbn [SFcompare option_map]; try reflexivity;
    try (destruct sa; reflexivity); try (destruct sb; reflexivity);
    try (destruct sa, sb; reflexivity).
  destruct sa, sb; cbn [CompOpp]; try reflexivity.
  - rewrite (Z.compare_antisym ea eb).
    destruct (ea ?= eb); cbn [CompOpp]; try reflexivity.
    rewrite (Pos.compare_cont_antisym ma mb Eq). reflexivity.
  - rewrite (Z.compare_antisym ea eb).
    destruct (ea ?= eb); cbn [CompOpp]; try reflexivity.
    rewrite (Pos.compare_cont_antisym ma mb Eq). reflexivity.
Qed.

Lemma SFcompare_None (a b : spec_float) :
  SFcompare a b = None -> a = S754_nan \/ b = S754_nan.
Proof.
  destruct a as [sa | sa | | sa ma ea], b as [sb | sb | | sb mb eb];
    cbn [SFcompare]; intros H; try discriminate; auto.
Qed.

Lemma not_nan_spec (x : float) : is_nan x = false -> Prim2SF x <> S754_nan.
Proof.
  unfold is_nan. rewrite FloatAxioms.eqb_spec. intros H Hnan.
  rewrite Hnan in H. discriminate.
Qed.

Lemma ltb_leb (x y : float) : (x <? y)%float = true -> (x <=? y)%float = true.
Proof.
  rewrite FloatAxioms.ltb_spec, FloatAxioms.leb_spec. unfold SFltb, SFleb.
  destruct (SFcompare _ _) as [[] |]; intros H; (reflexivity || discriminate).
Qed.

(** Two numbers are ordered one way or the other. *)
Lemma not_ltb_leb (x y : float) :
  is_nan x = false -> is_nan y = false ->
  (y <? x)%float = false -> (x <=? y)%float = true.
Proof.
  intros Hx%not_nan_spec Hy%not_nan_spec.
  rewrite FloatAxioms.ltb_spec, FloatAxioms.leb_spec. unfold SFltb, SFleb.
  rewrite (SFcompare_antisym (Prim2SF x) (Prim2SF y)).
  destruct (SFcompare (Prim2SF x) (Prim2SF y)) as [[] |] eqn:Hc; cbn; intros H;
    try reflexivity; try discriminate.
  apply SFcompare_None in Hc as [? | ?]; contradiction.
Qed.

(** [Math.min(255, Math.max(0, x))] is NaN (when [x] is), or a number of
    [0, 255]. *)
Lemma Math_clamp_range (x : float) :
  is_nan (JS.Math_min 255 (JS.Math_max 0 x)) = true \/
  ((0 <=? JS.Math_min 255 (JS.Math_max 0 x))%float = true /\
   (JS.Math_min 255 (JS.Math_max 0 x) <=? 255)%float = true).
Proof.
  unfold JS.Math_max.
  change (is_nan 0) with false. change (JS.is_neg_zero 0) with false. cbn [orb].
  destruct (is_nan x) eqn:Hn; [left; reflexivity |].
  destruct (0 <? x)%float eqn:H0.
  - unfold JS.Math_min.
    change (is_nan 255) with false. change (JS.is_neg_zero 255) with false.
    rewrite Hn. cbn [orb].
    destruct (255 <? x)%float eqn:H1; [right; split; reflexivity |].
    assert (Hx : (if (x <? 255)%float then x else x) = x) by now destruct (x <? 255)%float.
    rewrite Hx. right. split; [now apply ltb_leb | now apply not_ltb_leb].
  - right. destruct (x <? 0)%float; split; reflexivity.
Qed.

End JSFacts.

(** ** The pixel filter *)

Module FilterFacts.
Import Filter.

#[local] Open Scope nat_scope.

Lemma filterStep_length (f : Filters) (data : list Z) (i : nat) :
  length (filterStep f data i) = length data.
Proof.
  unfold filterStep.
  destruct (filterPixel f _) as [[r g] b].
  now rewrite !length_insert.
Qed.

Lemma filterStep_lookup_ne (f : Filters) (data : list Z) (i k : nat) :
  k <> i -> k <> i + 1 -> k <> i + 2 ->
  filterStep f data i !! k = data !! k.
Proof.
  intros H0 H1 H2. unfold filterStep.
  destruct (filterPixel f _) as [[r g] b].
  rewrite !list_lookup_insert_ne by lia. reflexivity.
Qed.

Lemma filterStep_lookup (f : Filters) (data : list Z) (i c : nat) :
  c < 3 -> i + c < length data ->
  filterStep f data i !! (i + c)
  = Some (JS.ToUint8Clamp
            (channel c (filterPixel f (sample data i, sample data (i + 1), sample data (i + 2))))).
Proof.
  intros Hc Hlen. unfold filterStep.
  destruct (filterPixel f _) as [[r g] b]. simpl.
  destruct c as [| [| [| c]]]; [| | | lia].
  - rewrite Nat.add_0_r in *.
    rewrite !list_lookup_insert_ne by lia.
    now apply list_lookup_insert_eq.
  - rewrite list_lookup_insert_ne by lia.
    apply list_lookup_insert_eq. now rewrite length_insert.
  - apply list_lookup_insert_eq. now rewrite !length_insert.
Qed.

Lemma sample_filterStep_ne (f : Filters) (data : list Z) (i k : nat) :
  i + 4 <= k -> sample (filterStep f data i) k = sample data k.
Proof.
  intros Hk. unfold sample. now rewrite filterStep_lookup_ne by lia.
Qed.

(** Enough fuel: the loop exits. *)
Lemma filterLoop_total (f : Filters) (fuel : nat) :
  forall (data : list Z) (i : nat),
    length data <= i + 4 * fuel -> is_Some (filterLoop fuel f data i).
Proof.
  induction fuel as [| fuel IH]; intros data i Hlen; cbn [filterLoop].
  - destruct (Nat.leb_spec (length data) i); [eauto | lia].
  - destruct (Nat.leb_spec (length data) i); [eauto |].
    apply IH. rewrite filterStep_length. lia.
Qed.

(** The loop started at pixel [n] leaves the pixels before [n] alone and
    filters every later one from the samples it had at the start. *)
Lemma filterLoop_lookup (f : Filters) (fuel : nat) :
  forall (data : list Z) (n : nat) (out : list Z),
    filterLoop fuel f data (4 * n) = Some out ->
    length out = length data /\
    forall p c, c < 4 ->
      out !! (4 * p + c) = if p <? n then data !! (4 * p + c) else filteredAt f data p c.
Proof.
  assert (Hdone : forall (data : list Z) n, length data <= 4 * n ->
            forall p c, c < 4 ->
              data !! (4 * p + c)
              = if p <? n then data !! (4 * p + c) else filteredAt f data p c).
  { intros data n Hlen p c Hc.
    destruct (Nat.ltb_spec p n) as [Hp | Hp]; [reflexivity |].
    unfold filteredAt.
    rewrite (lookup_ge_None_2 data (4 * p + c)) by lia. reflexivity. }
  induction fuel as [| fuel IH]; intros data n out; cbn [filterLoop].
  - destruct (Nat.leb_spec (length data) (4 * n)) as [Hlen | Hlen]; [| discriminate].
    intros [= <-]. split; [reflexivity | now apply Hdone].
  - destruct (Nat.leb_spec (length data) (4 * n)) as [Hlen | Hlen].
    { intros [= <-]. split; [reflexivity | now apply Hdone]. }
    replace (4 * n + 4) with (4 * S n) by lia.
    intros Hloop. apply IH in Hloop as [Hl Hout].
    rewrite filterStep_length in Hl. split; [exact Hl |].
    intros p c Hc. rewrite (Hout p c Hc).
    destruct (Nat.ltb_spec p (S n)) as [Hp | Hp].
    + destruct (Nat.ltb_spec p n) as [Hp' | Hp'].
      * apply filterStep_lookup_ne; lia.
      * assert (p = n) as -> by lia.
        unfold filteredAt.
        destruct (Nat.eqb_spec c 3) as [-> | Hc3].
        { rewrite filterStep_lookup_ne by lia. now destruct (data !! _). }
        destruct (data !! (4 * n + c)) as [v |] eqn:Hv.
        -- apply lookup_lt_Some in Hv.
           rewrite filterStep_lookup by lia. reflexivity.
        -- apply lookup_ge_None in Hv. apply lookup_ge_None.
           rewrite filterStep_length. exact Hv.
    + destruct (Nat.ltb_spec p n) as [Hp' | Hp']; [lia |].
      unfold filteredAt, pixelAt.
      rewrite filterStep_lookup_ne by lia.
      rewrite !sample_filterStep_ne by lia. reflexivity.
Qed.

(** [applyFiltersToContext] returns, and what it returns. *)
Lemma applyFilters_lookup (img : ImageData) (f : Filters) :
  exists out : list Z,
    applyFiltersToContext img f
    = Some {| width := width img; height := height img; data := out |} /\
    length out = length (data img) /\
    forall p c, c < 4 -> out !! (4 * p + c) = filteredAt f (data img) p c.
Proof.
  unfold applyFiltersToContext.
  destruct (filterLoop_total f (length (data img)) (data img) 0) as [out Hout]; [lia |].
  rewrite Hout. exists out. split; [reflexivity |].
  change 0 with (4 * 0) in Hout.
  apply filterLoop_lookup in Hout as [Hl Hspec].
  split; [exact Hl | exact Hspec].
Qed.

(** The loop body computes the five steps of the specification. *)
Lemma filterPixel_specPixel (f : Filters) (px : RGB) :
  filterPixel f px = specPixel f px.
Proof.
  destruct px as [[r g] b].
  unfold filterPixel, specPixel, stepClamp, stepContrast, stepBrightness,
    stepInvert, stepGrayscale, luma, mapRGB, clamp.
  destruct (grayscale f), (invert f); reflexivity.
Qed.

Lemma channel_pixelAt (data : list Z) (p c : nat) :
  c < 3 -> channel c (pixelAt data p) = sample data (4 * p + c).
Proof.
  intros Hc. unfold pixelAt, channel.
  destruct c as [| [| [| c]]]; [| | | lia]; try reflexivity.
  now rewrite Nat.add_0_r.
Qed.

Lemma filterPixel_channel (f : Filters) (px : RGB) (c : nat) :
  grayscale f = false -> c < 3 ->
  channel c (filterPixel f px) = colorChannel f (channel c px).
Proof.
  intros Hg Hc. destruct px as [[r g] b].
  unfold filterPixel, colorChannel, clamp, channel. rewrite Hg.
  destruct (invert f); destruct c as [| [| [| c]]]; solve [reflexivity | lia].
Qed.

Lemma allSamples_spec (test : Z -> bool) :
  allSamples test = true -> forall v : Z, (0 <= v <= 255)%Z -> test v = true.
Proof.
  unfold allSamples. intros Hall v Hv.
  rewrite forallb_forall in Hall. apply Hall.
  replace v with (Z.of_nat (Z.to_nat v)) by lia.
  apply in_map, in_seq. lia.
Qed.

(** The sample left at a colour channel when [grayscale] is off. *)
Lemma filteredAt_color (f : Filters) (data : list Z) (p c : nat) (v : Z) :
  grayscale f = false -> c < 3 -> data !! (4 * p + c) = Some v ->
  filteredAt f data p c = Some (JS.ToUint8Clamp (colorChannel f (JS.num v))).
Proof.
  intros Hg Hc Hv. unfold filteredAt. rewrite Hv.
  destruct (Nat.eqb_spec c 3) as [-> | _]; [lia |].
  rewrite filterPixel_channel, channel_pixelAt by assumption.
  unfold sample. now rewrite Hv.
Qed.

Lemma filteredAt_alpha (f : Filters) (data : list Z) (p : nat) :
  filteredAt f data p 3 = data !! (4 * p + 3).
Proof. unfold filteredAt. now destruct (data !! _). Qed.

(** Every index is a channel of a pixel. *)
Lemma index_pixel_channel (k : nat) : k = 4 * (k / 4) + k mod 4 /\ k mod 4 < 4.
Proof.
  split; [apply Nat.div_mod_eq | apply Nat.mod_upper_bound; lia].
Qed.

(** With the neutral configuration a stored sample is the sample read. *)
Lemma neutral_sample (v : Z) :
  (0 <= v <= 255)%Z -> JS.ToUint8Clamp (colorChannel neutral (JS.num v)) = v.
Proof.
  intros Hv.
  apply Z.eqb_eq.
  apply (allSamples_spec (fun v => JS.ToUint8Clamp (colorChannel neutral (JS.num v)) =? v)%Z);
    [vm_compute; reflexivity | exact Hv].
Qed.

(** Inverting a sample gives a sample, and inverting that one gives the
    first one back. *)
Lemma invert_sample (v : Z) :
  (0 <= v <= 255)%Z ->
  JS.ToUint8Clamp (colorChannel invertOnly (JS.num v)) = (255 - v)%Z.
Proof.
  intros Hv.
  apply Z.eqb_eq.
  apply (allSamples_spec
           (fun v => JS.ToUint8Clamp (colorChannel invertOnly (JS.num v)) =? 255 - v)%Z);
    [vm_compute; reflexivity | exact Hv].
Qed.

(** C4: on every pixel of every buffer and for every configuration, the
    filter stores in the three colour channels the result of the five steps
    of the specification taken in order (grayscale, invert, brightness,
    contrast, clamp), leaves the alpha channel as it was, and returns a
    buffer of the same width, height and length. *)
Theorem applyFilters_steps (img : ImageData) (f : Filters) :
  exists out : ImageData,
    applyFiltersToContext img f = Some out /\
    width out = width img /\ height out = height img /\
    length (data out) = length (data img) /\
    forall p : nat,
      (forall c, c < 3 -> 4 * p + c < length (data img) ->
         data out !! (4 * p + c)
         = Some (JS.ToUint8Clamp (channel c (specPixel f (pixelAt (data img) p))))) /\
      data out !! (4 * p + 3) = data img !! (4 * p + 3).
Proof.
  destruct (applyFilters_lookup img f) as (out & Hrun & Hlen & Hout).
  eexists. split; [exact Hrun |]. cbn [width height data].
  repeat split; try assumption.
  - intros c Hc Hin.
    rewrite Hout by lia. unfold filteredAt.
    apply lookup_lt_is_Some_2 in Hin as [v ->].
    destruct (Nat.eqb_spec c 3) as [-> | _]; [lia |].
    now rewrite filterPixel_specPixel.
  - rewrite Hout by lia. apply filteredAt_alpha.
Qed.

(** C7: with the neutral configuration (no invert, no grayscale, whiteness
    0, blackness 0) the filter returns the buffer it was given, every sample
    unchanged. *)
Theorem neutral_is_identity (img : ImageData) :
  samples (data img) -> applyFiltersToContext img neutral = Some img.
Proof.
  intros Hs.
  destruct (applyFilters_lookup img neutral) as (out & Hrun & Hlen & Hout).
  rewrite Hrun. destruct img as [w h d]; cbn [width height data] in *.
  do 2 f_equal. apply list_eq. intros k.
  destruct (index_pixel_channel k) as [Hk Hc]. rewrite Hk.
  rewrite Hout by exact Hc.
  destruct (Nat.eq_dec (k mod 4) 3) as [-> | Hc3]; [apply filteredAt_alpha |].
  destruct (d !! (4 * (k / 4) + k mod 4)) as [v |] eqn:Hv.
  - rewrite (filteredAt_color neutral d _ _ v) by (reflexivity || lia || assumption).
    f_equal. apply neutral_sample.
    exact (Forall_lookup_1 _ _ _ _ Hs Hv).
  - unfold filteredAt. now rewrite Hv.
Qed.

Lemma neutral_is_identity_witness :
  samples [12; 200; 0; 255; 255; 128; 7; 0]%Z /\
  applyFiltersToContext {| width := 2%Z; height := 1%Z; data := [12; 200; 0; 255; 255; 128; 7; 0]%Z |}
    neutral
  = Some {| width := 2%Z; height := 1%Z; data := [12; 200; 0; 255; 255; 128; 7; 0]%Z |}.
Proof.
  assert (Hs : samples [12; 200; 0; 255; 255; 128; 7; 0]%Z)
    by (repeat constructor; lia).
  split; [exact Hs |].
  exact (neutral_is_identity
           {| width := 2%Z; height := 1%Z; data := [12; 200; 0; 255; 255; 128; 7; 0]%Z |} Hs).
Defined.

(** C8: filtering twice with only [invert] switched on gives the buffer
    back, every sample as it was. *)
Theorem invert_twice_round_trip (img : ImageData) :
  samples (data img) ->
  exists mid : ImageData,
    applyFiltersToContext img invertOnly = Some mid /\
    applyFiltersToContext mid invertOnly = Some img.
Proof.
  intros Hs.
  destruct (applyFilters_lookup img invertOnly) as (mid & Hrun & Hlen & Hmid).
  eexists. split; [exact Hrun |].
  match goal with |- applyFiltersToContext ?m _ = _ =>
    destruct (applyFilters_lookup m invertOnly) as (out & Hrun2 & Hlen2 & Hout)
  end.
  rewrite Hrun2. destruct img as [w h d]; cbn [width height data] in *.
  do 2 f_equal. apply list_eq. intros k.
  destruct (index_pixel_channel k) as [Hk Hc]. rewrite Hk.
  rewrite Hout by exact Hc.
  destruct (Nat.eq_dec (k mod 4) 3) as [-> | Hc3].
  { rewrite filteredAt_alpha, Hmid by lia. apply filteredAt_alpha. }
  destruct (d !! (4 * (k / 4) + k mod 4)) as [v |] eqn:Hv.
  - assert (Hr : (0 <= v <= 255)%Z) by exact (Forall_lookup_1 _ _ _ _ Hs Hv).
    assert (Hm : mid !! (4 * (k / 4) + k mod 4) = Some (255 - v)%Z).
    { rewrite Hmid by exact Hc.
      rewrite (filteredAt_color invertOnly d _ _ v) by (reflexivity || lia || assumption).
      now rewrite invert_sample. }
    rewrite (filteredAt_color invertOnly mid (k / 4) (k mod 4) (255 - v)%Z eq_refl ltac:(lia) Hm).
    rewrite invert_sample by lia. f_equal. lia.
  - assert (Hm : mid !! (4 * (k / 4) + k mod 4) = None).
    { rewrite Hmid by exact Hc. unfold filteredAt. now rewrite Hv. }
    unfold filteredAt. now rewrite Hm.
Qed.

Lemma invert_twice_round_trip_witness :
  samples [12; 200; 0; 255; 255; 128; 7; 0]%Z /\
  exists mid : ImageData,
    applyFiltersToContext
      {| width := 2%Z; height := 1%Z; data := [12; 200; 0; 255; 255; 128; 7; 0]%Z |} invertOnly
    = Some mid /\
    applyFiltersToContext mid invertOnly
    = Some {| width := 2%Z; height := 1%Z; data := [12; 200; 0; 255; 255; 128; 7; 0]%Z |}.
Proof.
  assert (Hs : samples [12; 200; 0; 255; 255; 128; 7; 0]%Z)
    by (repeat constructor; lia).
  split; [exact Hs |].
  exact (invert_twice_round_trip
           {| width := 2%Z; height := 1%Z; data := [12; 200; 0; 255; 255; 128; 7; 0]%Z |} Hs).
Defined.

(** C9: whatever the configuration, whiteness and blackness of any size
    included, and whatever the buffer, every colour channel of the result
    holds a value of [0, 255]: the value the loop assigns is a number of
    [0, 255] unless it is NaN, and the sample stored is an integer of
    [0, 255] in every case. *)
Theorem output_channels_in_range (img : ImageData) (f : Filters) :
  (forall (px : RGB) (c : nat),
      is_nan (channel c (filterPixel f px)) = true \/
      ((0 <=? channel c (filterPixel f px))%float = true /\
       (channel c (filterPixel f px) <=? 255)%float = true)) /\
  exists out : ImageData,
    applyFiltersToContext img f = Some out /\
    forall (p c : nat) (v : Z),
      c < 3 -> data out !! (4 * p + c) = Some v -> (0 <= v <= 255)%Z.
Proof.
  split.
  - intros [[r g] b] c. unfold filterPixel.
    destruct (grayscale f), (invert f); cbn [channel];
      destruct c as [| [| c]]; apply JSFacts.Math_clamp_range.
  - destruct (applyFilters_lookup img f) as (out & Hrun & Hlen & Hout).
    eexists. split; [exact Hrun |]. cbn [data].
    intros p c v Hc. rewrite Hout by lia. unfold filteredAt.
    destruct (data img !! (4 * p + c)) as [v0 |]; [| discriminate].
    destruct (Nat.eqb_spec c 3) as [-> | _]; [lia |].
    intros [= <-]. apply JSFacts.ToUint8Clamp_range.
Qed.

(** A finite configuration that drives a channel to NaN: the store still
    leaves a sample of [0, 255]. *)
Example blackness_overflow :
  filterPixel {| invert := false; grayscale := false; whiteness := 0; blackness := 15e307 |}
    (255, 255, 255)%float = (nan, nan, nan) /\
  applyFiltersToContext {| width := 1%Z; height := 1%Z; data := [255; 255; 255; 9]%Z |}
    {| invert := false; grayscale := false; whiteness := 0; blackness := 15e307 |}
  = Some {| width := 1%Z; height := 1%Z; data := [0; 0; 0; 9]%Z |}.
Proof. split; vm_compute; reflexivity. Qed.

End FilterFacts.

(** ** The page compositor *)

Module CompositorFacts.
Import Model Compositor.

(** On a canvas that has pixels the filter pass returns a canvas of the
    same size. *)
Lemma applyFilters_returns (canvas : Canvas) (f : Filter.Filters) :
  isEmpty canvas = false ->
  exists px : list Z,
    applyFilters canvas f
    = Return {| canvas_width := canvas_width canvas;
                canvas_height := canvas_height canvas;
                pixels := px |}.
Proof.
  intros Hpixels. unfold applyFilters. rewrite Hpixels.
  match goal with |- context [Filter.applyFiltersToContext ?img f] =>
    destruct (FilterFacts.applyFilters_lookup img f) as (out & Hrun & _)
  end.
  rewrite Hrun. exists out. reflexivity.
Qed.

Lemma inRange_setSize (default : Z) (x : float) (n : Z) :
  DOM.inRange x = Some n -> DOM.setSize default x = n.
Proof. unfold DOM.setSize. now intros ->. Qed.

(** A side in range is a whole number of pixels from 0 to 2^31 - 1. *)
Lemma inRange_bounds (x : float) (n : Z) :
  DOM.inRange x = Some n -> 0 <= n <= 2147483647.
Proof.
  unfold DOM.inRange. destruct (Z.leb_spec (DOM.ToUnsignedLong x) 2147483647) as [Hle |];
    [| discriminate].
  intros [= <-]. split; [| exact Hle].
  unfold DOM.ToUnsignedLong. destruct (Prim2SF x); try lia.
  apply Z.mod_pos_bound. lia.
Qed.

(** The doodle step, when it returns, leaves the size of the canvas as it
    was. *)
Lemma applyDoodle_size (P : Platform) (pageItem : PageItem) (thumb : Thumbnail)
    (canvas out : Canvas) :
  applyDoodle P pageItem thumb canvas = Return out ->
  canvas_width out = canvas_width canvas /\
  canvas_height out = canvas_height canvas.
Proof.
  unfold applyDoodle. destruct (hasDoodle pageItem) as [url |].
  - destruct (imageLoads P url); [| discriminate].
    intros [= <-]. split; reflexivity.
  - intros [= <-]. split; reflexivity.
Qed.

(** The doodle step returns when there is no doodle or its image loads. *)
Lemma applyDoodle_returns (P : Platform) (pageItem : PageItem) (thumb : Thumbnail)
    (canvas : Canvas) :
  (forall url, hasDoodle pageItem = Some url -> imageLoads P url = true) ->
  exists out : Canvas, applyDoodle P pageItem thumb canvas = Return out.
Proof.
  intros Hloads. unfold applyDoodle.
  destruct (hasDoodle pageItem) as [url |]; [| eexists; reflexivity].
  rewrite (Hloads url eq_refl). eexists; reflexivity.
Qed.

(** An empty data URL is no doodle: the step is skipped. *)
Lemma hasDoodle_empty (pageItem : PageItem) :
  drawingDataUrl pageItem = Some EmptyString -> hasDoodle pageItem = None.
Proof. unfold hasDoodle. now intros ->. Qed.

(** C5: when the rasterized page is [W] by [H] pixels, both positive (the
    sizes its canvas took from the viewport's width and height, fractions
    dropped), and the images the compositor waits for load, the composited
    canvas is [H] by [W] for a rotation of 90 or 270 degrees and [W] by [H]
    for a rotation of 0 or 180. *)
Theorem canvas_size_follows_rotation (P : Platform)
    (files : gmap string UploadedFile) (pageItem : PageItem)
    (file : UploadedFile) (thumb : Thumbnail) (W H : Z) :
  files !! fileId pageItem = Some file ->
  renderPageToThumbnail P (data file) (originalPageIndex pageItem) 1.5%float
  = Return thumb ->
  DOM.inRange (width thumb) = Some W ->
  DOM.inRange (height thumb) = Some H ->
  0 < W -> 0 < H ->
  imageLoads P (dataUrl thumb) = true ->
  getContext2d P = true ->
  (forall url, hasDoodle pageItem = Some url -> imageLoads P url = true) ->
  rasterSize thumb = (W, H) /\
  exists canvas : Canvas,
    compositeCanvas P files pageItem = Return canvas /\
    (rotation pageItem = 90 \/ rotation pageItem = 270 ->
     canvas_width canvas = H /\ canvas_height canvas = W) /\
    (rotation pageItem = 0 \/ rotation pageItem = 180 ->
     canvas_width canvas = W /\ canvas_height canvas = H).
Proof.
  intros Hfile Hthumb HW HH HWpos HHpos Himg Hctx Hdoodle.
  split.
  { unfold rasterSize, DOM.setWidth, DOM.setHeight.
    now rewrite (inRange_setSize _ _ _ HW), (inRange_setSize _ _ _ HH). }
  assert (Hpixels : isEmpty (setupCanvas P pageItem thumb) = false).
  { unfold isEmpty. cbn [canvas_width canvas_height setupCanvas].
    unfold DOM.setWidth, DOM.setHeight.
    destruct (isRotated90or270 pageItem);
      rewrite ?(inRange_setSize _ _ _ HW), ?(inRange_setSize _ _ _ HH);
      apply orb_false_iff; split; apply Z.eqb_neq; lia. }
  unfold compositeCanvas. rewrite Hfile, Hthumb, Himg, Hctx.
  destruct (applyFilters_returns (setupCanvas P pageItem thumb) (filters pageItem)
              Hpixels) as [px ->].
  destruct (applyDoodle_returns P pageItem thumb
              {| canvas_width := canvas_width (setupCanvas P pageItem thumb);
                 canvas_height := canvas_height (setupCanvas P pageItem thumb);
                 pixels := px |} Hdoodle) as [out Hout].
  exists out. split; [exact Hout |].
  destruct (applyDoodle_size _ _ _ _ _ Hout) as [-> ->].
  cbn [canvas_width canvas_height setupCanvas]. unfold isRotated90or270.
  unfold DOM.setWidth, DOM.setHeight.
  split; intros [-> | ->]; cbn [Z.eqb Pos.eqb orb];
    rewrite ?(inRange_setSize _ _ _ HW), ?(inRange_setSize _ _ _ HH);
    split; reflexivity.
Qed.

Lemma canvas_size_follows_rotation_witness :
  rasterSize Fake.a4 = (892, 1262) /\
  exists canvas : Canvas,
    compositeCanvas Fake.a4Platform Fake.files (Fake.doodled 2 90) = Return canvas /\
    (90 = 90 \/ 90 = 270 -> canvas_width canvas = 1262 /\ canvas_height canvas = 892) /\
    (90 = 0 \/ 90 = 180 -> canvas_width canvas = 892 /\ canvas_height canvas = 1262).
Proof.
  apply (canvas_size_follows_rotation Fake.a4Platform Fake.files (Fake.doodled 2 90)
           Fake.file Fake.a4 892 1262); reflexivity.
Defined.

End CompositorFacts.

(** ** The sheet packer *)

Module PackerFacts.
Import Model Assembler.

#[local] Open Scope nat_scope.

(** A slice that starts inside the array and runs forward is a [take] of a
    [drop]. *)
Lemma slice_chunk {A} (l : list A) (q n : nat) :
  slice l (Z.of_nat q) (Z.of_nat q + Z.of_nat n) = take n (drop q l).
Proof.
  unfold slice, sliceIndex.
  destruct (Z.ltb_spec (Z.of_nat q) 0) as [? | _]; [lia |].
  destruct (Z.ltb_spec (Z.of_nat q + Z.of_nat n) 0) as [? | _]; [lia |].
  destruct (Nat.le_gt_cases q (length l)) as [Hq | Hq].
  - rewrite (Z.min_l (Z.of_nat q)) by lia. rewrite Nat2Z.id.
    destruct (Nat.le_gt_cases (q + n) (length l)) as [Hn | Hn].
    + rewrite Z.min_l by lia. f_equal. lia.
    + rewrite Z.min_r by lia.
      rewrite (take_ge (drop q l) n) by (rewrite length_drop; lia).
      apply take_ge. rewrite length_drop. lia.
  - rewrite !Z.min_r by lia. rewrite Z.sub_diag. cbn [Z.to_nat take].
    rewrite (drop_ge l q) by lia. now rewrite take_nil.
Qed.

(** The loop started at index [q] with enough fuel exits, having pushed the
    chunks of the items from [q] on. *)
Lemma chunkLoop_chunks {A} (xs : list A) (n : nat) :
  1 <= n ->
  forall (fuel q : nat) (acc : list (list A)),
    length xs - q <= fuel ->
    exists gs : list (list A),
      chunkLoop fuel xs (Z.of_nat n) (Z.of_nat q) acc = Some (acc ++ gs) /\
      concat gs = drop q xs /\
      length xs - q <= length gs * n < length xs - q + n /\
      forall j, j < length gs -> gs !! j = Some (take n (drop (q + j * n) xs)).
Proof.
  intros Hn.
  assert (Hexit : forall fuel q acc, length xs <= q ->
            exists gs : list (list A),
              chunkLoop fuel xs (Z.of_nat n) (Z.of_nat q) acc = Some (acc ++ gs) /\
              concat gs = drop q xs /\
              length xs - q <= length gs * n < length xs - q + n /\
              forall j, j < length gs -> gs !! j = Some (take n (drop (q + j * n) xs))).
  { intros fuel q acc Hq. exists [].
    repeat split.
    - rewrite app_nil_r. destruct fuel; cbn [chunkLoop];
        destruct (Z.ltb_spec (Z.of_nat q) (Z.of_nat (length xs))); (lia || reflexivity).
    - now rewrite drop_ge.
    - cbn [length]. lia.
    - cbn [length]. lia.
    - cbn [length]. intros j Hj. lia. }
  induction fuel as [| fuel IH]; intros q acc Hfuel.
  - apply Hexit. lia.
  - destruct (Nat.le_gt_cases (length xs) q) as [Hq | Hq]; [now apply Hexit |].
    cbn [chunkLoop].
    destruct (Z.ltb_spec (Z.of_nat q) (Z.of_nat (length xs))) as [_ | ?]; [| lia].
    rewrite slice_chunk. rewrite <- Nat2Z.inj_add.
    destruct (IH (q + n) (acc ++ [take n (drop q xs)])) as (gs & Hrun & Hcat & Hcount & Hget);
      [lia |].
    exists (take n (drop q xs) :: gs).
    split; [| split; [| split]].
    + rewrite Hrun. now rewrite <- app_assoc.
    + cbn [concat]. rewrite Hcat.
      rewrite <- (drop_drop xs n q). apply take_drop.
    + cbn [length].
      destruct (Nat.le_gt_cases (q + n) (length xs)) as [Hfull | Hshort]; [lia |].
      destruct (length gs) as [| k]; lia.
    + intros [| j] Hj; cbn [length] in Hj.
      * cbn. now rewrite Nat.add_0_r.
      * change ((take n (drop q xs) :: gs) !! S j) with (gs !! j).
        rewrite (Hget j) by lia.
        do 3 f_equal. lia.
Qed.

(** The number of chunks is the quotient rounded up. *)
Lemma chunk_count (k n groups : nat) :
  1 <= n -> k <= groups * n < k + n -> groups = (k + n - 1) / n.
Proof.
  intros Hn Hg.
  apply (Nat.div_unique (k + n - 1) n groups (k + n - 1 - groups * n)); lia.
Qed.

(** With a group size of zero or less the loop index never reaches the
    length: the loop does not exit on a selection that is not empty. *)
Lemma chunkLoop_stuck {A} (xs : list A) (n : Z) :
  (n <= 0)%Z -> xs <> [] ->
  forall (fuel : nat) (i : Z) (acc : list (list A)),
    (i <= 0)%Z -> chunkLoop fuel xs n i acc = None.
Proof.
  intros Hn Hxs.
  assert (Hlen : 0 < length xs) by (destruct xs; [congruence | cbn; lia]).
  induction fuel as [| fuel IH]; intros i acc Hi; cbn [chunkLoop];
    destruct (Z.ltb_spec i (Z.of_nat (length xs))) as [_ | ?]; try lia.
  - reflexivity.
  - apply IH. lia.
Qed.

(** C2: for a group size [n >= 1] the selected items are cut into
    contiguous chunks in document order: the loop returns [ceil(k / n)]
    groups for [k] selected items, group [j] holds the items of indices
    [j * n] to [(j + 1) * n - 1] of the selection, every group but the last
    has [n] items, and the groups put end to end are the selection. *)
Theorem chunking_is_contiguous (pages : list PageItem) (n : Z) :
  (1 <= n)%Z ->
  exists groups : list (list PageItem),
    chunkPages (activePages pages) n = Some groups /\
    Z.of_nat (length groups) = ceilDiv (Z.of_nat (length (activePages pages))) n /\
    (forall (j : nat) (group : list PageItem),
        groups !! j = Some group ->
        forall t : nat,
          group !! t = if decide (Z.of_nat t < n)%Z
                       then activePages pages !! (j * Z.to_nat n + t)
                       else None) /\
    (forall (j : nat) (group : list PageItem),
        S j < length groups -> groups !! j = Some group ->
        Z.of_nat (length group) = n) /\
    concat groups = activePages pages.
Proof.
  intros Hn.
  set (xs := activePages pages).
  set (n' := Z.to_nat n).
  assert (Hn' : 1 <= n') by lia.
  assert (Hnn : n = Z.of_nat n') by lia.
  destruct (chunkLoop_chunks xs n' Hn' (length xs) 0 []) as (gs & Hrun & Hcat & Hcount & Hget);
    [lia |].
  rewrite Nat.sub_0_r in Hcount.
  exists gs. unfold chunkPages. rewrite Hnn. split; [exact Hrun |].
  split; [| split; [| split]].
  - unfold ceilDiv. rewrite (chunk_count (length xs) n' (length gs) Hn' Hcount).
    rewrite Nat2Z.inj_div. f_equal. lia.
  - intros j group Hj t.
    pose proof (lookup_lt_Some _ _ _ Hj) as Hlt.
    rewrite (Hget j Hlt) in Hj. injection Hj as <-.
    rewrite lookup_take, lookup_drop.
    repeat case_decide; try lia; reflexivity.
  - intros j group Hlast Hj.
    assert (Hlt : j < length gs) by lia.
    rewrite (Hget j Hlt) in Hj. injection Hj as <-.
    assert (Hmul : S (S j) * n' <= length gs * n') by (apply Nat.mul_le_mono_r; lia).
    cbn [Nat.mul] in Hmul.
    rewrite length_take, length_drop. lia.
  - rewrite Hcat. apply drop_0.
Qed.

Lemma chunking_is_contiguous_witness :
  (1 <= 4)%Z /\
  exists groups : list (list PageItem),
    chunkPages (activePages (map (fun i => Fake.page i (negb (i =? 2)%Z) 0)
                                 [0; 1; 2; 3; 4; 5; 6; 7; 8; 9]%Z)) 4
    = Some groups /\
    Z.of_nat (length groups) = 3%Z.
Proof.
  split; [lia |].
  destruct (chunking_is_contiguous
              (map (fun i => Fake.page i (negb (i =? 2)%Z) 0)
                   [0; 1; 2; 3; 4; 5; 6; 7; 8; 9]%Z) 4 ltac:(lia))
    as (groups & Hrun & Hcount & _).
  exists groups. split; [exact Hrun |]. rewrite Hcount. reflexivity.
Defined.


End PackerFacts.

(** ** The document assembler *)

Module AssemblerFacts.
Import Model Assembler.

#[local] Open Scope nat_scope.

(** *** Runs that return *)

Lemma bind_Return {A B} (m : M A) (k : A -> M B) (log log' : list EncoderCall) (b : B) :
  bind m k log = (Return b, log') ->
  exists (a : A) (mid : list EncoderCall),
    m log = (Return a, mid) /\ k a mid = (Return b, log').
Proof.
  unfold bind. destruct (m log) as [[a | msg |] mid]; intros H; try discriminate.
  now exists a, mid.
Qed.

Lemma sheetsIn_app (l1 l2 : list EncoderCall) :
  sheetsIn (l1 ++ l2) = sheetsIn l1 + sheetsIn l2.
Proof. unfold sheetsIn. now rewrite List.filter_app, length_app. Qed.

Lemma sheetsIn_drawImageCall (page : nat) (n i : Z) (image : PDFImage) :
  sheetsIn [drawImageCall page n i image] = 0.
Proof.
  unfold drawImageCall. now destruct (placeImage n i image) as [[[x y] w] h].
Qed.

Section Runs.

Variable P : Platform.
Variable files : gmap string UploadedFile.
Variable layout : LayoutSettings.

(** A cell that is drawn: the page was composited, the image embedded, and
    the image drawn where [placeImage] puts it. *)
Lemma drawCell_Return (page : nat) (i : Z) (pageItem : PageItem)
    (log log' : list EncoderCall) :
  drawCell P files layout page i pageItem log = (Return tt, log') ->
  exists (jpeg : list Z) (image : PDFImage) (evs : list EncoderCall),
    Compositor.processPageImage P files pageItem = Return jpeg /\
    embedJpg P jpeg = Return image /\
    log' = log ++ evs /\ sheetsIn evs = 0 /\
    In (drawImageCall page (nUp layout) i image) evs.
Proof.
  unfold drawCell. intros Hrun.
  apply bind_Return in Hrun as (jpeg & l1 & Hjpeg & Hrun).
  unfold lift in Hjpeg. injection Hjpeg as Hjpeg <-.
  apply bind_Return in Hrun as (image & l2 & Himage & Hrun).
  unfold embed in Himage.
  apply bind_Return in Himage as ([] & l3 & Hcall & Himage).
  unfold call in Hcall. injection Hcall as <-.
  unfold lift in Himage. injection Himage as Himage <-.
  apply bind_Return in Hrun as ([] & l4 & Hdraw & Hrun).
  unfold call in Hdraw. injection Hdraw as <-.
  exists jpeg, image.
  destruct (showBorders layout).
  - unfold call in Hrun. injection Hrun as <-.
    exists [EmbedJpg jpeg; drawImageCall page (nUp layout) i image;
            cellBorder page (nUp layout) i].
    split; [exact Hjpeg |]. split; [exact Himage |].
    split; [now rewrite <- !app_assoc |].
    split; [| right; now left].
    change (sheetsIn ([EmbedJpg jpeg] ++ [drawImageCall page (nUp layout) i image]
                        ++ [cellBorder page (nUp layout) i]) = 0).
    now rewrite !sheetsIn_app, sheetsIn_drawImageCall.
  - unfold ret in Hrun. injection Hrun as <-.
    exists [EmbedJpg jpeg; drawImageCall page (nUp layout) i image].
    split; [exact Hjpeg |]. split; [exact Himage |].
    split; [now rewrite <- !app_assoc |].
    split; [| right; now left].
    change (sheetsIn ([EmbedJpg jpeg] ++ [drawImageCall page (nUp layout) i image]) = 0).
    now rewrite !sheetsIn_app, sheetsIn_drawImageCall.
Qed.

(** The inner loop that returns has drawn every item of the chunk in the
    cell of its index, and has added no sheet. *)
Lemma forIndex_Return (page : nat) (chunk : list PageItem) :
  forall (i0 : Z) (log log' : list EncoderCall),
    forIndex i0 chunk (drawCell P files layout page) log = (Return tt, log') ->
    exists evs : list EncoderCall,
      log' = log ++ evs /\ sheetsIn evs = 0 /\
      forall (t : nat) (pageItem : PageItem),
        chunk !! t = Some pageItem ->
        exists (jpeg : list Z) (image : PDFImage),
          Compositor.processPageImage P files pageItem = Return jpeg /\
          embedJpg P jpeg = Return image /\
          In (drawImageCall page (nUp layout) (i0 + Z.of_nat t)%Z image) evs.
Proof.
  induction chunk as [| item rest IH]; intros i0 log log' Hrun; cbn [forIndex] in Hrun.
  - unfold ret in Hrun. injection Hrun as <-.
    exists []. rewrite app_nil_r. repeat split. intros t pageItem Ht. discriminate.
  - apply bind_Return in Hrun as ([] & mid & Hcell & Hrest).
    apply drawCell_Return in Hcell as (jpeg & image & evs1 & Hjpeg & Himage & -> & Hs1 & Hin1).
    apply IH in Hrest as (evs2 & -> & Hs2 & Hin2).
    exists (evs1 ++ evs2). rewrite app_assoc. split; [reflexivity |].
    split; [rewrite sheetsIn_app; lia |].
    intros [| t] pageItem Ht.
    + injection Ht as <-. exists jpeg, image. repeat split; try assumption.
      rewrite Z.add_0_r. apply in_or_app. now left.
    + destruct (Hin2 t pageItem Ht) as (jpeg' & image' & Hj & Hi & Hin).
      exists jpeg', image'. repeat split; try assumption.
      replace (i0 + Z.of_nat (S t))%Z with (i0 + 1 + Z.of_nat t)%Z by lia.
      apply in_or_app. now right.
Qed.

(** The outer loop that returns has added one sheet per chunk, in order,
    and has drawn every item of every chunk on the sheet of its chunk. *)
Lemma forOf_Return (groups : list (list PageItem)) :
  forall (log log' : list EncoderCall),
    forOf groups (drawSheet P files layout) log = (Return tt, log') ->
    exists evs : list EncoderCall,
      log' = log ++ evs /\ sheetsIn evs = length groups /\
      forall (j t : nat) (chunk : list PageItem) (pageItem : PageItem),
        groups !! j = Some chunk -> chunk !! t = Some pageItem ->
        exists (jpeg : list Z) (image : PDFImage),
          Compositor.processPageImage P files pageItem = Return jpeg /\
          embedJpg P jpeg = Return image /\
          In (drawImageCall (sheetsIn log + j) (nUp layout) (Z.of_nat t) image) evs.
Proof.
  induction groups as [| chunk0 rest IH]; intros log log' Hrun; cbn [forOf] in Hrun.
  - unfold ret in Hrun. injection Hrun as <-.
    exists []. rewrite app_nil_r. repeat split. intros j t chunk pageItem Hj. discriminate.
  - apply bind_Return in Hrun as ([] & mid & Hsheet & Hrest).
    unfold drawSheet in Hsheet.
    apply bind_Return in Hsheet as (page & l1 & Hadd & Hcells).
    unfold addPage in Hadd. injection Hadd as <- <-.
    apply forIndex_Return in Hcells as (evs1 & -> & Hs1 & Hin1).
    apply IH in Hrest as (evs2 & -> & Hs2 & Hin2).
    exists ([AddPage PAGE_WIDTH PAGE_HEIGHT] ++ evs1 ++ evs2).
    split; [now rewrite <- !app_assoc |].
    split; [rewrite !sheetsIn_app, Hs1, Hs2; reflexivity |].
    intros [| j] t chunk pageItem Hj Ht.
    + injection Hj as <-.
      destruct (Hin1 t pageItem Ht) as (jpeg & image & Hjpeg & Himage & Hin).
      exists jpeg, image. repeat split; try assumption.
      rewrite Nat.add_0_r, Z.add_0_l in *.
      apply in_or_app. right. apply in_or_app. now left.
    + destruct (Hin2 j t chunk pageItem Hj Ht) as (jpeg & image & Hjpeg & Himage & Hin).
      exists jpeg, image. repeat split; try assumption.
      rewrite !sheetsIn_app, Hs1 in Hin.
      replace (sheetsIn log + S j) with (sheetsIn log + sheetsIn [AddPage PAGE_WIDTH PAGE_HEIGHT] + 0 + j)
        by (cbn; lia).
      apply in_or_app. right. apply in_or_app. now right.
Qed.

(** A run that returns: the selection was chunked, one sheet was added per
    chunk, and every item of every chunk was drawn on the sheet of its
    chunk, in the cell of its index. *)
Lemma generateFinalPdf_Return (pages : list PageItem) (bytes : list Z)
    (log : list EncoderCall) :
  generateFinalPdf P files layout pages [] = (Return bytes, log) ->
  exists groups : list (list PageItem),
    chunkPages (activePages pages) (nUp layout) = Some groups /\
    sheetsIn log = length groups /\
    forall (j t : nat) (chunk : list PageItem) (pageItem : PageItem),
      groups !! j = Some chunk -> chunk !! t = Some pageItem ->
      exists (jpeg : list Z) (image : PDFImage),
        Compositor.processPageImage P files pageItem = Return jpeg /\
        embedJpg P jpeg = Return image /\
        In (drawImageCall j (nUp layout) (Z.of_nat t) image) log.
Proof.
  unfold generateFinalPdf. intros Hrun.
  apply bind_Return in Hrun as ([] & l0 & Hcreate & Hrun).
  unfold call in Hcreate. injection Hcreate as <-. cbn [app] in Hrun.
  destruct (length (activePages pages) =? 0); [discriminate |].
  destruct (chunkPages (activePages pages) (nUp layout)) as [groups |]; [| discriminate].
  exists groups. split; [reflexivity |].
  apply bind_Return in Hrun as ([] & l1 & Hsheets & Hrun).
  apply forOf_Return in Hsheets as (evs & -> & Hcount & Hdrawn).
  apply bind_Return in Hrun as ([] & l2 & Hsave & Hrun).
  unfold call in Hsave. injection Hsave as <-.
  injection Hrun as _ <-.
  split.
  - change (sheetsIn ([Create] ++ evs ++ [Save]) = length groups).
    rewrite !sheetsIn_app, Hcount. cbn. lia.
  - intros j t chunk pageItem Hj Ht.
    destruct (Hdrawn j t chunk pageItem Hj Ht) as (jpeg & image & Hjpeg & Himage & Hin).
    exists jpeg, image. split; [exact Hjpeg |]. split; [exact Himage |].
    right. apply in_or_app. now left.
Qed.

(** *** Every call of every run *)

Lemma keeps_ret {A} (Q : EncoderCall -> Prop) (a : A) : keeps Q (ret a).
Proof. intros log Hlog. exact Hlog. Qed.

Lemma keeps_lift {A} (Q : EncoderCall -> Prop) (o : Outcome A) : keeps Q (lift o).
Proof. intros log Hlog. exact Hlog. Qed.

Lemma keeps_call (Q : EncoderCall -> Prop) (c : EncoderCall) : Q c -> keeps Q (call c).
Proof.
  intros Hc log Hlog. cbn. apply Forall_app. split; [exact Hlog | now constructor].
Qed.

Lemma keeps_bind {A B} (Q : EncoderCall -> Prop) (m : M A) (k : A -> M B) :
  keeps Q m -> (forall a, keeps Q (k a)) -> keeps Q (bind m k).
Proof.
  intros Hm Hk log Hlog. specialize (Hm log Hlog). unfold bind.
  destruct (m log) as [[a | msg |] mid]; cbn [snd] in *; try exact Hm.
  now apply Hk.
Qed.

Lemma keeps_forIndex {A} (Q : EncoderCall -> Prop) (body : Z -> A -> M unit)
    (xs : list A) :
  (forall i x, keeps Q (body i x)) -> forall i, keeps Q (forIndex i xs body).
Proof.
  intros Hbody. induction xs as [| x rest IH]; intros i; cbn [forIndex].
  - apply keeps_ret.
  - apply keeps_bind; [apply Hbody | intros _; apply IH].
Qed.

Lemma keeps_forOf {A} (Q : EncoderCall -> Prop) (body : A -> M unit) (xs : list A) :
  (forall x, keeps Q (body x)) -> keeps Q (forOf xs body).
Proof.
  intros Hbody. induction xs as [| x rest IH]; cbn [forOf].
  - apply keeps_ret.
  - apply keeps_bind; [apply Hbody | intros _; exact IH].
Qed.

(** The code places an image as the specification says, on an A4 sheet
    with a margin of 20 and an inner padding of 10. *)
Lemma placeImage_fitInCell (n i : Z) (image : PDFImage) :
  placeImage n i image
  = fitInCell 595.28 841.89 20 10 (cols n) (rows n) i
      (fst (scale image 1)) (snd (scale image 1)).
Proof. unfold placeImage, fitInCell, cellWidth, cellHeight. reflexivity. Qed.

Lemma onA4_drawImageCall (page : nat) (n i : Z) (image : PDFImage) :
  onA4 n (drawImageCall page n i image).
Proof.
  unfold drawImageCall.
  destruct (placeImage n i image) as [[[x y] w] h] eqn:Hplace.
  cbn [onA4]. exists i. rewrite <- Hplace. apply placeImage_fitInCell.
Qed.

Lemma onA4_cellBorder (page : nat) (n i : Z) : onA4 n (cellBorder page n i).
Proof.
  unfold cellBorder. cbn [onA4]. exists i.
  unfold cellBounds, cellWidth, cellHeight. reflexivity.
Qed.

Lemma keeps_drawSheet (chunk : list PageItem) :
  keeps (onA4 (nUp layout)) (drawSheet P files layout chunk).
Proof.
  unfold drawSheet. apply keeps_bind.
  - intros log Hlog. cbn. apply Forall_app. split; [exact Hlog |].
    constructor; [| constructor]. cbn [onA4]. split; reflexivity.
  - intros page. apply keeps_forIndex. intros i pageItem.
    unfold drawCell. apply keeps_bind; [apply keeps_lift |]. intros jpeg.
    apply keeps_bind.
    { unfold embed. apply keeps_bind; [now apply keeps_call | intros _; apply keeps_lift]. }
    intros image.
    apply keeps_bind; [apply keeps_call, onA4_drawImageCall |]. intros _.
    destruct (showBorders layout); [apply keeps_call, onA4_cellBorder | apply keeps_ret].
Qed.

End Runs.

(** *** The assembler's contract *)

(** C1, as the code has it: with no page selected the assembler throws
    "No pages selected"; by then it has created the document and made no
    other encoder call: no sheet, no image, no drawing, no serialization. *)
Theorem empty_selection_fails (P : Platform) (files : gmap string UploadedFile)
    (layout : LayoutSettings) (pages : list PageItem) :
  activePages pages = [] ->
  generateFinalPdf P files layout pages [] = (Throw "No pages selected", [Create]).
Proof.
  intros Hempty. unfold generateFinalPdf, bind, call.
  rewrite Hempty. reflexivity.
Qed.

Lemma empty_selection_fails_witness :
  activePages [Fake.page 0 false 0; Fake.page 1 false 90] = [] /\
  generateFinalPdf Fake.platform Fake.files (Fake.layout 4 true)
    [Fake.page 0 false 0; Fake.page 1 false 90] []
  = (Throw "No pages selected", [Create]).
Proof.
  split; [reflexivity |].
  apply (empty_selection_fails Fake.platform Fake.files (Fake.layout 4 true)
           [Fake.page 0 false 0; Fake.page 1 false 90]).
  reflexivity.
Defined.

(** C1 as stated does not hold: with no page at all the failure comes after
    an encoder call, the creation of the document. *)
Lemma empty_selection_creates_document :
  activePages [] = [] /\
  fst (generateFinalPdf Fake.platform Fake.files (Fake.layout 4 true) [] [])
  = Throw "No pages selected" /\
  In Create (snd (generateFinalPdf Fake.platform Fake.files (Fake.layout 4 true) [] [])) /\
  snd (generateFinalPdf Fake.platform Fake.files (Fake.layout 4 true) [] []) <> [].
Proof.
  split; [reflexivity |]. split; [reflexivity |].
  split; [now left | discriminate].
Qed.

(** C6: in a run that returns, the item at index [i] of a group is drawn on
    the sheet of the group at one scale [s] for both axes, the smaller of
    what fits the cell less 10 across and down, centred in its cell, the
    row counted from the top of the sheet and the ordinate from the bottom. *)
Theorem images_fitted_and_centred (P : Platform) (files : gmap string UploadedFile)
    (layout : LayoutSettings) (pages : list PageItem) (bytes : list Z)
    (log : list EncoderCall) :
  generateFinalPdf P files layout pages [] = (Return bytes, log) ->
  exists groups : list (list PageItem),
    chunkPages (activePages pages) (nUp layout) = Some groups /\
    forall (j t : nat) (chunk : list PageItem) (pageItem : PageItem),
      groups !! j = Some chunk -> chunk !! t = Some pageItem ->
      exists (jpeg : list Z) (image : PDFImage),
        Compositor.processPageImage P files pageItem = Return jpeg /\
        embedJpg P jpeg = Return image /\
        let i := Z.of_nat t in
        let colIndex := (i mod cols (nUp layout))%Z in
        let rowIndex := (i / cols (nUp layout))%Z in
        let cellWidth := cellWidth (nUp layout) in
        let cellHeight := cellHeight (nUp layout) in
        let innerPadding := 10%float in
        let imageWidth := fst (scale image 1) in
        let imageHeight := snd (scale image 1) in
        let s := JS.Math_min ((cellWidth - innerPadding) / imageWidth)%float
                             ((cellHeight - innerPadding) / imageHeight)%float in
        let drawWidth := (imageWidth * s)%float in
        let drawHeight := (imageHeight * s)%float in
        let x := (MARGIN + JS.num colIndex * cellWidth
                  + (cellWidth - drawWidth) / 2)%float in
        let y := (PAGE_HEIGHT - MARGIN - (JS.num rowIndex + 1) * cellHeight
                  + (cellHeight - drawHeight) / 2)%float in
        In (DrawImage j image x y drawWidth drawHeight) log.
Proof.
  intros Hrun.
  destruct (generateFinalPdf_Return P files layout pages bytes log Hrun)
    as (groups & Hchunks & _ & Hdrawn).
  exists groups. split; [exact Hchunks |].
  intros j t chunk pageItem Hj Ht.
  destruct (Hdrawn j t chunk pageItem Hj Ht) as (jpeg & image & Hjpeg & Himage & Hin).
  exists jpeg, image. split; [exact Hjpeg |]. split; [exact Himage |].
  exact Hin.
Qed.

Lemma images_fitted_and_centred_witness :
  exists groups : list (list PageItem),
    chunkPages (activePages [Fake.page 0 true 0; Fake.page 1 true 90; Fake.page 2 true 0]) 2
    = Some groups /\
    In (DrawImage 0 {| image_width := 2; image_height := 3 |}
          167.32499999999999 25 260.63 390.94499999999999)
       (snd (generateFinalPdf Fake.platform Fake.files (Fake.layout 2 false)
               [Fake.page 0 true 0; Fake.page 1 true 90; Fake.page 2 true 0] [])).
Proof.
  destruct (images_fitted_and_centred Fake.platform Fake.files (Fake.layout 2 false)
              [Fake.page 0 true 0; Fake.page 1 true 90; Fake.page 2 true 0]
              (match fst (generateFinalPdf Fake.platform Fake.files (Fake.layout 2 false)
                 [Fake.page 0 true 0; Fake.page 1 true 90; Fake.page 2 true 0] []) with
               | Return bytes => bytes | _ => [] end)
              (snd (generateFinalPdf Fake.platform Fake.files (Fake.layout 2 false)
                 [Fake.page 0 true 0; Fake.page 1 true 90; Fake.page 2 true 0] [])))
    as (groups & Hchunks & Hdrawn); [vm_compute; reflexivity |].
  exists groups. split; [exact Hchunks |].
  vm_compute in Hchunks. injection Hchunks as <-.
  destruct (Hdrawn 0 1 _ (Fake.page 1 true 90) eq_refl eq_refl)
    as (jpeg & image & Hjpeg & Himage & Hin).
  vm_compute in Hjpeg. injection Hjpeg as <-.
  vm_compute in Himage. injection Himage as <-.
  vm_compute in Hin. vm_compute. exact Hin.
Defined.

(** C10: whatever the pages, their sizes and the layout, every sheet the
    assembler adds is 595.28 by 841.89 points (A4, portrait), every image
    is fitted with a margin of 20 points around the sheet and 10 points
    taken off its cell, and every border is drawn on cell bounds with the
    same margin; a run that returns has added one such sheet per group. *)
Theorem sheets_are_A4 (P : Platform) (files : gmap string UploadedFile)
    (layout : LayoutSettings) (pages : list PageItem) :
  Forall (onA4 (nUp layout)) (snd (generateFinalPdf P files layout pages [])) /\
  forall bytes : list Z,
    fst (generateFinalPdf P files layout pages []) = Return bytes ->
    exists groups : list (list PageItem),
      chunkPages (activePages pages) (nUp layout) = Some groups /\
      sheetsIn (snd (generateFinalPdf P files layout pages [])) = length groups.
Proof.
  split.
  - assert (Hkeeps : keeps (onA4 (nUp layout)) (generateFinalPdf P files layout pages)).
    { unfold generateFinalPdf.
      apply keeps_bind; [now apply keeps_call |]. intros _.
      destruct (length (activePages pages) =? 0); [intros log Hlog; exact Hlog |].
      destruct (chunkPages (activePages pages) (nUp layout)) as [groups |];
        [| intros log Hlog; exact Hlog].
      apply keeps_bind; [apply keeps_forOf, keeps_drawSheet |]. intros _.
      apply keeps_bind; [now apply keeps_call |]. intros _.
      intros log Hlog. exact Hlog. }
    apply Hkeeps. constructor.
  - intros bytes Hret.
    destruct (generateFinalPdf_Return P files layout pages bytes
                (snd (generateFinalPdf P files layout pages [])))
      as (groups & Hchunks & Hcount & _).
    { rewrite <- Hret. now destruct (generateFinalPdf P files layout pages []). }
    exists groups. split; assumption.
Qed.

End AssemblerFacts.

(** ** More on the pixel filter *)

Module FilterExtras.
Import Filter Config.

#[local] Open Scope nat_scope.

Lemma filterPixel_gray (f : Filters) (px : RGB) :
  grayscale f = true -> exists y : float, filterPixel f px = (y, y, y).
Proof.
  intros Hg. destruct px as [[r g] b]. unfold filterPixel. rewrite Hg.
  destruct (invert f); eexists; reflexivity.
Qed.

Lemma allSliderValues_spec (test : Z -> bool) :
  allSliderValues test = true -> forall w : Z, (0 <= w <= 100)%Z -> test w = true.
Proof.
  unfold allSliderValues. intros Hall w Hw.
  rewrite forallb_forall in Hall. apply Hall.
  replace w with (Z.of_nat (Z.to_nat w)) by lia.
  apply in_map, in_seq. lia.
Qed.

(** Every sample of the result sits at a channel of a pixel. *)
Lemma lookup_filtered (img : ImageData) (f : Filters) :
  exists out : list Z,
    applyFiltersToContext img f
    = Some {| width := width img; height := height img; data := out |} /\
    length out = length (data img) /\
    forall k, out !! k = filteredAt f (data img) (k / 4) (k mod 4).
Proof.
  destruct (FilterFacts.applyFilters_lookup img f) as (out & Hrun & Hlen & Hout).
  exists out. split; [exact Hrun |]. split; [exact Hlen |].
  intros k. destruct (FilterFacts.index_pixel_channel k) as [Hk Hc].
  rewrite Hk at 1. now apply Hout.
Qed.

(** With [grayscale] on, the three colour channels of every whole pixel of
    the result hold the same value. *)
Theorem grayscale_equal_channels (img : ImageData) (f : Filters) :
  grayscale f = true ->
  exists out : ImageData,
    applyFiltersToContext img f = Some out /\
    forall p : nat,
      4 * p + 2 < length (data img) ->
      data out !! (4 * p) = data out !! (4 * p + 1) /\
      data out !! (4 * p + 1) = data out !! (4 * p + 2).
Proof.
  intros Hg.
  destruct (FilterFacts.applyFilters_lookup img f) as (out & Hrun & Hlen & Hout).
  eexists. split; [exact Hrun |]. cbn [data]. intros p Hp.
  pose proof (Hout p 0 ltac:(lia)) as H0.
  pose proof (Hout p 1 ltac:(lia)) as H1.
  pose proof (Hout p 2 ltac:(lia)) as H2.
  rewrite Nat.add_0_r in H0. rewrite H0, H1, H2. unfold filteredAt.
  destruct (filterPixel_gray f (pixelAt (data img) p) Hg) as [y ->].
  rewrite Nat.add_0_r.
  destruct (lookup_lt_is_Some_2 (data img) (4 * p) ltac:(lia)) as [v0 ->].
  destruct (lookup_lt_is_Some_2 (data img) (4 * p + 1) ltac:(lia)) as [v1 ->].
  destruct (lookup_lt_is_Some_2 (data img) (4 * p + 2) ltac:(lia)) as [v2 ->].
  split; reflexivity.
Qed.

Lemma grayscale_equal_channels_witness :
  exists out : ImageData,
    applyFiltersToContext
      {| width := 1%Z; height := 1%Z; data := [10; 200; 30; 255]%Z |}
      (Dashboard.inkSaver true) = Some out /\
    data out !! 0 = data out !! 1 /\ data out !! 1 = data out !! 2.
Proof.
  destruct (grayscale_equal_channels
              {| width := 1%Z; height := 1%Z; data := [10; 200; 30; 255]%Z |}
              (Dashboard.inkSaver true) eq_refl) as (out & Hrun & Hsame).
  exists out. split; [exact Hrun |].
  apply (Hsame 0). cbn. lia.
Defined.

(** A gray pixel is its own luma, once stored. *)
Lemma gray_sample (v : Z) (c : nat) :
  (0 <= v <= 255)%Z ->
  JS.ToUint8Clamp (channel c (filterPixel grayscaleOnly (JS.num v, JS.num v, JS.num v))) = v.
Proof.
  intros Hv.
  destruct (filterPixel_gray grayscaleOnly (JS.num v, JS.num v, JS.num v) eq_refl)
    as [y Hy].
  assert (Hc : channel c (filterPixel grayscaleOnly (JS.num v, JS.num v, JS.num v))
               = channel 0 (filterPixel grayscaleOnly (JS.num v, JS.num v, JS.num v))).
  { rewrite Hy. now destruct c as [| [| c]]. }
  rewrite Hc. apply Z.eqb_eq.
  apply (FilterFacts.allSamples_spec
           (fun v => JS.ToUint8Clamp
                       (channel 0 (filterPixel grayscaleOnly (JS.num v, JS.num v, JS.num v)))
                     =? v)%Z);
    [vm_compute; reflexivity | exact Hv].
Qed.

(** Turning a buffer of whole pixels to gray a second time changes
    nothing. *)
Theorem grayscale_is_idempotent (img : ImageData) (n : nat) :
  length (data img) = 4 * n ->
  exists once : ImageData,
    applyFiltersToContext img grayscaleOnly = Some once /\
    applyFiltersToContext once grayscaleOnly = Some once.
Proof.
  intros Hlen.
  destruct (FilterFacts.applyFilters_lookup img grayscaleOnly) as (mid & Hrun & Hl1 & Hmid).
  eexists. split; [exact Hrun |].
  match goal with |- applyFiltersToContext ?m _ = _ =>
    destruct (FilterFacts.applyFilters_lookup m grayscaleOnly) as (out & Hrun2 & Hl2 & Hout)
  end.
  rewrite Hrun2. cbn [width height data] in *. do 2 f_equal.
  apply list_eq. intros k.
  destruct (FilterFacts.index_pixel_channel k) as [Hk Hc]. rewrite Hk.
  set (p := k / 4) in *. set (c := k mod 4) in *.
  rewrite Hout by exact Hc.
  destruct (Nat.eq_dec c 3) as [-> | Hc3]; [apply FilterFacts.filteredAt_alpha |].
  destruct (Nat.lt_ge_cases (4 * p + c) (4 * n)) as [Hin | Hout_of].
  - (* the pixel is whole: the first pass left one value [y] in its channels *)
    destruct (filterPixel_gray grayscaleOnly (pixelAt (data img) p) eq_refl) as [y Hy].
    assert (Hch : forall i, i < 3 -> mid !! (4 * p + i) = Some (JS.ToUint8Clamp y)).
    { intros i Hi. rewrite Hmid by lia. unfold filteredAt.
      destruct (lookup_lt_is_Some_2 (data img) (4 * p + i) ltac:(lia)) as [v ->].
      destruct (Nat.eqb_spec i 3) as [-> | _]; [lia |].
      rewrite Hy. now destruct i as [| [| i]]. }
    assert (Hpx : pixelAt mid p
                  = (JS.num (JS.ToUint8Clamp y), JS.num (JS.ToUint8Clamp y),
                     JS.num (JS.ToUint8Clamp y))).
    { unfold pixelAt, sample.
      rewrite <- (Nat.add_0_r (4 * p)) at 1.
      now rewrite !Hch by lia. }
    unfold filteredAt. rewrite (Hch c) by lia.
    destruct (Nat.eqb_spec c 3) as [-> | _]; [lia |].
    rewrite Hpx. f_equal. apply gray_sample. apply JSFacts.ToUint8Clamp_range.
  - unfold filteredAt.
    rewrite (lookup_ge_None_2 mid (4 * p + c)) by lia. reflexivity.
Qed.

Lemma grayscale_is_idempotent_witness :
  exists once : ImageData,
    applyFiltersToContext
      {| width := 2%Z; height := 1%Z; data := [10; 200; 30; 255; 0; 0; 255; 7]%Z |}
      grayscaleOnly = Some once /\
    applyFiltersToContext once grayscaleOnly = Some once.
Proof.
  exact (grayscale_is_idempotent
           {| width := 2%Z; height := 1%Z; data := [10; 200; 30; 255; 0; 0; 255; 7]%Z |}
           2 eq_refl).
Defined.

(** A buffer of samples stays a buffer of samples, whatever the
    configuration. *)
Theorem samples_preserved (img : ImageData) (f : Filters) :
  samples (data img) ->
  exists out : ImageData, applyFiltersToContext img f = Some out /\ samples (data out).
Proof.
  intros Hs.
  destruct (lookup_filtered img f) as (out & Hrun & Hlen & Hout).
  eexists. split; [exact Hrun |]. cbn [data].
  apply Forall_lookup_2. intros k x. rewrite Hout. unfold filteredAt.
  destruct (data img !! (4 * (k / 4) + k mod 4)) as [v |] eqn:Hv; [| discriminate].
  destruct (k mod 4 =? 3).
  - intros [= <-]. exact (Forall_lookup_1 _ _ _ _ Hs Hv).
  - intros [= <-]. apply JSFacts.ToUint8Clamp_range.
Qed.

Lemma samples_preserved_witness :
  samples [10; 200; 30; 255]%Z /\
  exists out : ImageData,
    applyFiltersToContext {| width := 1%Z; height := 1%Z; data := [10; 200; 30; 255]%Z |}
      (Dashboard.inkSaver true) = Some out /\
    samples (data out).
Proof.
  assert (Hs : samples [10; 200; 30; 255]%Z) by (repeat constructor; lia).
  split; [exact Hs |].
  exact (samples_preserved {| width := 1%Z; height := 1%Z; data := [10; 200; 30; 255]%Z |}
           (Dashboard.inkSaver true) Hs).
Defined.

(** With [grayscale] off, each colour sample of the result depends on the
    sample at the same place alone. *)
Lemma lookup_color (img : ImageData) (f : Filters) :
  grayscale f = false ->
  exists out : ImageData,
    applyFiltersToContext img f = Some out /\
    forall (k : nat) (v : Z),
      data img !! k = Some v ->
      data out !! k
      = Some (if k mod 4 =? 3 then v else JS.ToUint8Clamp (colorChannel f (JS.num v))).
Proof.
  intros Hg.
  destruct (lookup_filtered img f) as (out & Hrun & Hlen & Hout).
  eexists. split; [exact Hrun |]. cbn [data]. intros k v Hv.
  rewrite Hout.
  destruct (FilterFacts.index_pixel_channel k) as [Hk Hc]. rewrite Hk in Hv.
  destruct (Nat.eqb_spec (k mod 4) 3) as [Hc3 | Hc3].
  - rewrite Hc3 in *. rewrite FilterFacts.filteredAt_alpha. exact Hv.
  - apply FilterFacts.filteredAt_color; [exact Hg | lia | exact Hv].
Qed.

(** With [invert] alone, every colour sample [v] becomes [255 - v] and
    every alpha sample stays. *)
Theorem invert_complements (img : ImageData) :
  samples (data img) ->
  exists out : ImageData,
    applyFiltersToContext img invertOnly = Some out /\
    forall (k : nat) (v : Z),
      data img !! k = Some v ->
      data out !! k = Some (if k mod 4 =? 3 then v else (255 - v)%Z).
Proof.
  intros Hs.
  destruct (lookup_color img invertOnly eq_refl) as (out & Hrun & Hout).
  exists out. split; [exact Hrun |]. intros k v Hv.
  rewrite (Hout k v Hv).
  destruct (k mod 4 =? 3); [reflexivity |].
  f_equal. apply FilterFacts.invert_sample.
  exact (Forall_lookup_1 _ _ _ _ Hs Hv).
Qed.

Lemma invert_complements_witness :
  samples [10; 200; 30; 77]%Z /\
  exists out : ImageData,
    applyFiltersToContext {| width := 1%Z; height := 1%Z; data := [10; 200; 30; 77]%Z |}
      invertOnly = Some out /\
    data out !! 1 = Some 55%Z /\ data out !! 3 = Some 77%Z.
Proof.
  assert (Hs : samples [10; 200; 30; 77]%Z) by (repeat constructor; lia).
  split; [exact Hs |].
  destruct (invert_complements
              {| width := 1%Z; height := 1%Z; data := [10; 200; 30; 77]%Z |} Hs)
    as (out & Hrun & Hout).
  exists out. split; [exact Hrun |].
  split; [exact (Hout 1 200%Z eq_refl) | exact (Hout 3 77%Z eq_refl)].
Defined.

(** At every position of the whiteness slider (0 to 100), and nothing else
    switched on, no sample of the result is darker than it was. *)
Theorem whiteness_never_darkens (img : ImageData) (w : Z) :
  (0 <= w <= 100)%Z -> samples (data img) ->
  exists out : ImageData,
    applyFiltersToContext img (brighten w) = Some out /\
    forall (k : nat) (v v' : Z),
      data img !! k = Some v -> data out !! k = Some v' -> (v <= v')%Z.
Proof.
  intros Hw Hs.
  destruct (lookup_color img (brighten w) eq_refl) as (out & Hrun & Hout).
  exists out. split; [exact Hrun |]. intros k v v' Hv Hv'.
  rewrite (Hout k v Hv) in Hv'.
  destruct (k mod 4 =? 3); injection Hv' as <-; [lia |].
  apply Z.leb_le.
  assert (Hall : allSliderValues
                   (fun w => allSamples
                      (fun v => v <=? JS.ToUint8Clamp (colorChannel (brighten w) (JS.num v)))%Z)
                 = true) by (vm_compute; reflexivity).
  apply (FilterFacts.allSamples_spec
           (fun v => v <=? JS.ToUint8Clamp (colorChannel (brighten w) (JS.num v)))%Z).
  - exact (allSliderValues_spec _ Hall w Hw).
  - exact (Forall_lookup_1 _ _ _ _ Hs Hv).
Qed.

Lemma whiteness_never_darkens_witness :
  (0 <= 12 <= 100)%Z /\ samples [10; 200; 30; 77]%Z /\
  exists out : ImageData,
    applyFiltersToContext {| width := 1%Z; height := 1%Z; data := [10; 200; 30; 77]%Z |}
      (brighten 12) = Some out /\
    forall v', data out !! 1 = Some v' -> (200 <= v')%Z.
Proof.
  assert (Hs : samples [10; 200; 30; 77]%Z) by (repeat constructor; lia).
  split; [lia |]. split; [exact Hs |].
  destruct (whiteness_never_darkens
              {| width := 1%Z; height := 1%Z; data := [10; 200; 30; 77]%Z |} 12
              ltac:(lia) Hs) as (out & Hrun & Hout).
  exists out. split; [exact Hrun |].
  intros v'. exact (Hout 1 200%Z v' eq_refl).
Defined.

(** At every position of the blackness slider (0 to 100), and nothing else
    switched on, the contrast turns on mid-gray: a colour sample below 128
    does not rise, one above 128 does not fall, and 128 stays 128. *)
Theorem contrast_pivots_on_mid_gray (img : ImageData) (b : Z) :
  (0 <= b <= 100)%Z -> samples (data img) ->
  exists out : ImageData,
    applyFiltersToContext img (contrast b) = Some out /\
    forall (k : nat) (v v' : Z),
      k mod 4 <> 3 ->
      data img !! k = Some v -> data out !! k = Some v' ->
      ((v < 128 -> v' <= v) /\ (v = 128 -> v' = 128) /\ (128 < v -> v <= v'))%Z.
Proof.
  intros Hb Hs.
  destruct (lookup_color img (contrast b) eq_refl) as (out & Hrun & Hout).
  exists out. split; [exact Hrun |]. intros k v v' Hk Hv.
  rewrite (Hout k v Hv).
  destruct (Nat.eqb_spec (k mod 4) 3) as [? | _]; [contradiction |].
  intros [= <-].
  assert (Hall : allSliderValues
                   (fun b => allSamples
                      (fun v =>
                         let o := JS.ToUint8Clamp (colorChannel (contrast b) (JS.num v)) in
                         if v <? 128 then o <=? v
                         else if 128 <? v then v <=? o else o =? 128)%Z)
                 = true) by (vm_compute; reflexivity).
  pose proof (FilterFacts.allSamples_spec _ (allSliderValues_spec _ Hall b Hb) v
                (Forall_lookup_1 _ _ _ _ Hs Hv)) as Hcheck.
  cbv beta zeta in Hcheck.
  destruct (Z.ltb_spec v 128); [apply Z.leb_le in Hcheck; lia |].
  destruct (Z.ltb_spec 128 v); [apply Z.leb_le in Hcheck; lia |].
  apply Z.eqb_eq in Hcheck. lia.
Qed.

Lemma contrast_pivots_on_mid_gray_witness :
  (0 <= 50 <= 100)%Z /\ samples [10; 200; 128; 77]%Z /\
  exists out : ImageData,
    applyFiltersToContext {| width := 1%Z; height := 1%Z; data := [10; 200; 128; 77]%Z |}
      (contrast 50) = Some out /\
    forall v', data out !! 2 = Some v' -> v' = 128%Z.
Proof.
  assert (Hs : samples [10; 200; 128; 77]%Z) by (repeat constructor; lia).
  split; [lia |]. split; [exact Hs |].
  destruct (contrast_pivots_on_mid_gray
              {| width := 1%Z; height := 1%Z; data := [10; 200; 128; 77]%Z |} 50
              ltac:(lia) Hs) as (out & Hrun & Hout).
  exists out. split; [exact Hrun |].
  intros v' Hv'.
  destruct (Hout 2 128%Z v' ltac:(vm_compute; discriminate) eq_refl Hv') as (_ & Hmid & _).
  now apply Hmid.
Defined.

End FilterExtras.

(** ** More on the document assembler *)

Module AssemblerExtras.
Import Model Assembler Expected.

#[local] Open Scope nat_scope.

(** *** Reading the expected calls *)





Lemma sheetsIn_cellCalls (layout : LayoutSettings) (page : nat) (i : Z)
    (cell : list Z * PDFImage) :
  sheetsIn (cellCalls layout page i cell) = 0.
Proof.
  unfold cellCalls, drawImageCall, cellBorder.
  destruct (placeImage (nUp layout) i (snd cell)) as [[[x y] w] h].
  now destruct (showBorders layout).
Qed.

Lemma sheetsIn_sheetCells (layout : LayoutSettings) (page : nat)
    (cells : list (list Z * PDFImage)) :
  forall i, sheetsIn (sheetCells layout page i cells) = 0.
Proof.
  induction cells as [| cell rest IH]; intros i; [reflexivity |].
  cbn [sheetCells]. now rewrite AssemblerFacts.sheetsIn_app, sheetsIn_cellCalls, IH.
Qed.

Lemma borders_cellCalls (layout : LayoutSettings) (page : nat) (i : Z)
    (cell : list Z * PDFImage) :
  length (List.filter Log.isBorder (cellCalls layout page i cell))
  = if showBorders layout then 1 else 0.
Proof.
  unfold cellCalls, drawImageCall, cellBorder.
  destruct (placeImage (nUp layout) i (snd cell)) as [[[x y] w] h].
  now destruct (showBorders layout).
Qed.

Lemma borders_sheetCells (layout : LayoutSettings) (page : nat)
    (cells : list (list Z * PDFImage)) :
  forall i,
    length (List.filter Log.isBorder (sheetCells layout page i cells))
    = if showBorders layout then length cells else 0.
Proof.
  induction cells as [| cell rest IH]; intros i; cbn [sheetCells length].
  - now destruct (showBorders layout).
  - rewrite List.filter_app, length_app, borders_cellCalls, IH.
    now destruct (showBorders layout).
Qed.

Lemma borders_documentCalls (layout : LayoutSettings)
    (sheets : list (list (list Z * PDFImage))) :
  forall page,
    length (List.filter Log.isBorder (documentCalls layout page sheets))
    = if showBorders layout then length (concat sheets) else 0.
Proof.
  induction sheets as [| cells rest IH]; intros page; cbn [documentCalls concat].
  - now destruct (showBorders layout).
  - cbn [List.filter Log.isBorder].
    rewrite List.filter_app, !length_app, borders_sheetCells, IH.
    now destruct (showBorders layout).
Qed.

Lemma no_save_documentCalls (layout : LayoutSettings)
    (sheets : list (list (list Z * PDFImage))) :
  forall page, Forall (fun c => Log.isSave c = false) (documentCalls layout page sheets).
Proof.
  assert (Hcells : forall page cells i,
            Forall (fun c => Log.isSave c = false) (sheetCells layout page i cells)).
  { intros page cells. induction cells as [| cell rest IH]; intros i; cbn [sheetCells].
    - constructor.
    - apply Forall_app. split; [| apply IH].
      unfold cellCalls, drawImageCall, cellBorder.
      destruct (placeImage (nUp layout) i (snd cell)) as [[[x y] w] h].
      destruct (showBorders layout); repeat constructor. }
  induction sheets as [| cells rest IH]; intros page; cbn [documentCalls].
  - constructor.
  - constructor; [reflexivity |]. apply Forall_app. split; [apply Hcells | apply IH].
Qed.

Section Runs.

Variable P : Platform.
Variable files : gmap string UploadedFile.
Variable layout : LayoutSettings.

(** *** The calls of a run that returns, call by call *)

Lemma drawCell_exact (page : nat) (i : Z) (pageItem : PageItem)
    (log log' : list EncoderCall) :
  drawCell P files layout page i pageItem log = (Return tt, log') ->
  exists cell : list Z * PDFImage,
    composed P files pageItem cell /\ log' = log ++ cellCalls layout page i cell.
Proof.
  unfold drawCell. intros Hrun.
  apply AssemblerFacts.bind_Return in Hrun as (jpeg & l1 & Hjpeg & Hrun).
  unfold lift in Hjpeg. injection Hjpeg as Hjpeg <-.
  apply AssemblerFacts.bind_Return in Hrun as (image & l2 & Himage & Hrun).
  unfold embed in Himage.
  apply AssemblerFacts.bind_Return in Himage as ([] & l3 & Hcall & Himage).
  unfold call in Hcall. injection Hcall as <-.
  unfold lift in Himage. injection Himage as Himage <-.
  apply AssemblerFacts.bind_Return in Hrun as ([] & l4 & Hdraw & Hrun).
  unfold call in Hdraw. injection Hdraw as <-.
  exists (jpeg, image). split; [split; assumption |].
  unfold cellCalls. cbn [fst snd].
  destruct (showBorders layout).
  - unfold call in Hrun. injection Hrun as <-. now rewrite <- !app_assoc.
  - unfold ret in Hrun. injection Hrun as <-. now rewrite <- !app_assoc.
Qed.

Lemma forIndex_exact (page : nat) (chunk : list PageItem) :
  forall (i0 : Z) (log log' : list EncoderCall),
    forIndex i0 chunk (drawCell P files layout page) log = (Return tt, log') ->
    exists cells : list (list Z * PDFImage),
      Forall2 (composed P files) chunk cells /\
      log' = log ++ sheetCells layout page i0 cells.
Proof.
  induction chunk as [| item rest IH]; intros i0 log log' Hrun; cbn [forIndex] in Hrun.
  - unfold ret in Hrun. injection Hrun as <-.
    exists []. split; [constructor | now rewrite app_nil_r].
  - apply AssemblerFacts.bind_Return in Hrun as ([] & mid & Hcell & Hrest).
    apply drawCell_exact in Hcell as (cell & Hcomposed & ->).
    apply IH in Hrest as (cells & Hcells & ->).
    exists (cell :: cells). split; [now constructor |].
    cbn [sheetCells]. now rewrite <- !app_assoc.
Qed.

Lemma forOf_exact (groups : list (list PageItem)) :
  forall (log log' : list EncoderCall),
    forOf groups (drawSheet P files layout) log = (Return tt, log') ->
    exists sheets : list (list (list Z * PDFImage)),
      Forall2 (Forall2 (composed P files)) groups sheets /\
      log' = log ++ documentCalls layout (sheetsIn log) sheets.
Proof.
  induction groups as [| chunk rest IH]; intros log log' Hrun; cbn [forOf] in Hrun.
  - unfold ret in Hrun. injection Hrun as <-.
    exists []. split; [constructor | now rewrite app_nil_r].
  - apply AssemblerFacts.bind_Return in Hrun as ([] & mid & Hsheet & Hrest).
    unfold drawSheet in Hsheet.
    apply AssemblerFacts.bind_Return in Hsheet as (page & l1 & Hadd & Hcells).
    unfold addPage in Hadd. injection Hadd as <- <-.
    apply forIndex_exact in Hcells as (cells & Hcomposed & ->).
    apply IH in Hrest as (sheets & Hsheets & ->).
    exists (cells :: sheets). split; [now constructor |].
    cbn [documentCalls].
    rewrite !AssemblerFacts.sheetsIn_app, sheetsIn_sheetCells.
    replace (sheetsIn log + sheetsIn [AddPage PAGE_WIDTH PAGE_HEIGHT] + 0)
      with (S (sheetsIn log)) by (cbn; lia).
    rewrite <- !app_assoc. reflexivity.
Qed.

(** What [generateFinalPdf] does from an empty log, case by case. *)
Lemma generateFinalPdf_cases (pages : list PageItem) :
  generateFinalPdf P files layout pages []
  = if length (activePages pages) =? 0 then (Throw "No pages selected", [Create])
    else match chunkPages (activePages pages) (nUp layout) with
         | None => (Diverge, [Create])
         | Some groups =>
             match forOf groups (drawSheet P files layout) [Create] with
             | (Return _, log) => (Return (save P (log ++ [Save])), log ++ [Save])
             | (Throw msg, log) => (Throw msg, log)
             | (Diverge, log) => (Diverge, log)
             end
         end.
Proof.
  unfold generateFinalPdf, bind at 1, call at 1. cbn [app].
  destruct (length (activePages pages) =? 0); [reflexivity |].
  destruct (chunkPages (activePages pages) (nUp layout)) as [groups |]; [| reflexivity].
  unfold bind, call.
  destruct (forOf groups (drawSheet P files layout) [Create]) as [[[] | msg |] log];
    reflexivity.
Qed.

Lemma generateFinalPdf_exact (pages : list PageItem) (bytes : list Z)
    (log : list EncoderCall) :
  generateFinalPdf P files layout pages [] = (Return bytes, log) ->
  exists (groups : list (list PageItem)) (sheets : list (list (list Z * PDFImage))),
    chunkPages (activePages pages) (nUp layout) = Some groups /\
    Forall2 (Forall2 (composed P files)) groups sheets /\
    log = Create :: documentCalls layout 0 sheets ++ [Save] /\
    bytes = save P log.
Proof.
  rewrite generateFinalPdf_cases.
  destruct (length (activePages pages) =? 0); [discriminate |].
  destruct (chunkPages (activePages pages) (nUp layout)) as [groups |]; [| discriminate].
  destruct (forOf groups (drawSheet P files layout) [Create]) as [[[] | msg |] mid] eqn:Hloop;
    try discriminate.
  intros [= <- <-].
  apply forOf_exact in Hloop as (sheets & Hsheets & ->).
  exists groups, sheets. repeat split; try assumption.
Qed.

End Runs.

(** *** Chunks, by the position of a page in the selection *)

(** With a group size [n >= 1], the item at position [q] is item [q mod n]
    of group [q / n]. *)
Lemma chunk_of_index {A} (xs : list A) (n : Z) (groups : list (list A)) :
  (1 <= n)%Z -> chunkPages xs n = Some groups ->
  concat groups = xs /\
  Z.of_nat (length groups) = ceilDiv (Z.of_nat (length xs)) n /\
  forall (q : nat) (x : A),
    xs !! q = Some x ->
    exists chunk : list A,
      groups !! (q / Z.to_nat n) = Some chunk /\ chunk !! (q mod Z.to_nat n) = Some x.
Proof.
  intros Hn Hrun.
  set (n' := Z.to_nat n).
  assert (Hn' : 1 <= n') by lia.
  destruct (PackerFacts.chunkLoop_chunks xs n' Hn' (length xs) 0 [])
    as (gs & Hgs & Hcat & Hcount & Hget); [lia |].
  unfold chunkPages in Hrun. replace n with (Z.of_nat n') in Hrun by lia.
  change (Z.of_nat 0) with 0%Z in Hgs. rewrite Hgs in Hrun. injection Hrun as <-.
  rewrite Nat.sub_0_r in Hcount. cbn [app].
  split; [now rewrite Hcat, drop_0 |]. split.
  - unfold ceilDiv.
    rewrite (PackerFacts.chunk_count (length xs) n' (length gs) Hn' Hcount).
    rewrite Nat2Z.inj_div. f_equal; unfold n'; lia.
  - intros q x Hq.
    pose proof (lookup_lt_Some _ _ _ Hq) as Hlt.
    assert (Hj : q / n' < length gs).
    { apply Nat.Div0.div_lt_upper_bound. lia. }
    exists (take n' (drop (0 + q / n' * n') xs)). split; [now apply Hget |].
    rewrite lookup_take_lt by (apply Nat.mod_upper_bound; lia).
    rewrite lookup_drop. rewrite <- Hq. f_equal.
    pose proof (Nat.div_mod_eq q n'). lia.
Qed.

(** A run that returns had a group size of one or more. *)
Lemma chunkPages_Some_positive {A} (xs : list A) (n : Z) (groups : list (list A)) :
  xs <> [] -> chunkPages xs n = Some groups -> (1 <= n)%Z.
Proof.
  intros Hxs Hrun.
  destruct (Z.le_gt_cases 1 n) as [Hn | Hn]; [exact Hn |].
  unfold chunkPages in Hrun.
  rewrite (PackerFacts.chunkLoop_stuck xs n ltac:(lia) Hxs) in Hrun by lia.
  discriminate.
Qed.

Lemma composed_concat (P : Platform) (files : gmap string UploadedFile)
    (groups : list (list PageItem)) (sheets : list (list (list Z * PDFImage))) :
  Forall2 (Forall2 (composed P files)) groups sheets ->
  map Return (map fst (concat sheets))
  = map (Compositor.processPageImage P files) (concat groups) /\
  length (concat sheets) = length (concat groups).
Proof.
  induction 1 as [| chunk cells groups sheets Hcells _ IH]; [split; reflexivity |].
  destruct IH as [IHmap IHlen].
  cbn [concat]. rewrite !map_app, !length_app, IHmap, IHlen.
  assert (Hone : map Return (map fst cells)
                 = map (Compositor.processPageImage P files) chunk
                 /\ length cells = length chunk).
  { clear -Hcells. induction Hcells as [| item cell chunk cells [Hjpeg _] _ [IHm IHl]];
      [split; reflexivity |].
    cbn [map length]. now rewrite Hjpeg, IHm, IHl. }
  destruct Hone as [-> ->]. split; reflexivity.
Qed.

(** The calls of a cell are calls of the document. *)
Lemma In_documentCalls (layout : LayoutSettings)
    (sheets : list (list (list Z * PDFImage))) :
  forall (page j t : nat) (cells : list (list Z * PDFImage)) (cell : list Z * PDFImage)
         (c : EncoderCall),
    sheets !! j = Some cells -> cells !! t = Some cell ->
    In c (cellCalls layout (page + j) (Z.of_nat t) cell) ->
    In c (documentCalls layout page sheets).
Proof.
  assert (Hcells : forall page cells i t cell c,
            cells !! t = Some cell ->
            In c (cellCalls layout page (i + Z.of_nat t) cell) ->
            In c (sheetCells layout page i cells)).
  { intros page cells. induction cells as [| cell0 rest IH]; intros i t cell c Ht Hin;
      [discriminate |].
    cbn [sheetCells]. apply in_or_app. destruct t as [| t].
    - injection Ht as <-. left. now rewrite Z.add_0_r in Hin.
    - right. apply (IH (i + 1)%Z t cell c Ht).
      now replace (i + 1 + Z.of_nat t)%Z with (i + Z.of_nat (S t))%Z by lia. }
  induction sheets as [| cells0 rest IH]; intros page j t cells cell c Hj Ht Hin;
    [discriminate |].
  cbn [documentCalls]. right. apply in_or_app. destruct j as [| j].
  - injection Hj as ->. left. rewrite Nat.add_0_r in Hin.
    now apply (Hcells page cells 0%Z t cell c Ht).
  - right. apply (IH (S page) j t cells cell c Hj Ht).
    now replace (S page + j) with (page + S j) by lia.
Qed.

(** *** What a user of the assembler can rely on *)



(** In a run that returns, the page at position [q] of the selection is
    drawn on sheet [q / n], in cell [q mod n], for [n] pages per sheet, and
    framed there when borders are shown. *)
Theorem page_lands_by_position (P : Platform) (files : gmap string UploadedFile)
    (layout : LayoutSettings) (pages : list PageItem) (bytes : list Z)
    (log : list EncoderCall) :
  generateFinalPdf P files layout pages [] = (Return bytes, log) ->
  forall (q : nat) (pageItem : PageItem),
    activePages pages !! q = Some pageItem ->
    exists cell : list Z * PDFImage,
      composed P files pageItem cell /\
      In (drawImageCall (q / Z.to_nat (nUp layout)) (nUp layout)
            (Z.of_nat (q mod Z.to_nat (nUp layout))) (snd cell)) log /\
      (showBorders layout = true ->
       In (cellBorder (q / Z.to_nat (nUp layout)) (nUp layout)
             (Z.of_nat (q mod Z.to_nat (nUp layout)))) log).
Proof.
  intros Hrun q pageItem Hq.
  assert (Hne : activePages pages <> []) by (intros He; rewrite He in Hq; discriminate).
  apply generateFinalPdf_exact in Hrun as (groups & sheets & Hchunks & Hsheets & -> & _).
  pose proof (chunkPages_Some_positive _ _ _ Hne Hchunks) as Hn.
  destruct (chunk_of_index _ _ _ Hn Hchunks) as (_ & _ & Hpos).
  destruct (Hpos q pageItem Hq) as (chunk & Hj & Ht).
  destruct (Forall2_lookup_l _ _ _ _ _ Hsheets Hj) as (cells & Hcells & Hchunk).
  destruct (Forall2_lookup_l _ _ _ _ _ Hchunk Ht) as (cell & Hcell & Hcomposed).
  exists cell. split; [exact Hcomposed |].
  split; [| intros Hborders]; right; apply in_or_app; left;
    apply (In_documentCalls layout sheets 0 _ _ cells cell _ Hcells Hcell);
    unfold cellCalls; cbn [Nat.add].
  - right. now left.
  - rewrite Hborders. right. right. now left.
Qed.

Lemma page_lands_by_position_witness :
  exists cell : list Z * PDFImage,
    composed Fake.platform Fake.files (Fake.page 3 true 0) cell /\
    In (drawImageCall 1 2 0 (snd cell))
       (snd (generateFinalPdf Fake.platform Fake.files (Fake.layout 2 true)
               [Fake.page 0 true 0; Fake.page 1 false 0; Fake.page 2 true 90;
                Fake.page 3 true 0] [])).
Proof.
  destruct (page_lands_by_position Fake.platform Fake.files (Fake.layout 2 true)
              [Fake.page 0 true 0; Fake.page 1 false 0; Fake.page 2 true 90;
               Fake.page 3 true 0]
              (save Fake.platform
                 (snd (generateFinalPdf Fake.platform Fake.files (Fake.layout 2 true)
                         [Fake.page 0 true 0; Fake.page 1 false 0; Fake.page 2 true 90;
                          Fake.page 3 true 0] [])))
              (snd (generateFinalPdf Fake.platform Fake.files (Fake.layout 2 true)
                      [Fake.page 0 true 0; Fake.page 1 false 0; Fake.page 2 true 90;
                       Fake.page 3 true 0] []))
              ltac:(vm_compute; reflexivity) 2 (Fake.page 3 true 0) eq_refl)
    as (cell & Hcomposed & Hdrawn & _).
  exists cell. split; [exact Hcomposed | exact Hdrawn].
Defined.

(** A run that returns has added [ceil(k / n)] sheets for [k] selected
    pages and [n] pages per sheet. *)
Theorem sheet_count (P : Platform) (files : gmap string UploadedFile)
    (layout : LayoutSettings) (pages : list PageItem) (bytes : list Z)
    (log : list EncoderCall) :
  generateFinalPdf P files layout pages [] = (Return bytes, log) ->
  Z.of_nat (sheetsIn log)
  = ceilDiv (Z.of_nat (length (activePages pages))) (nUp layout).
Proof.
  intros Hrun.
  assert (Hne : activePages pages <> []).
  { rewrite generateFinalPdf_cases in Hrun.
    destruct (activePages pages); [discriminate | congruence]. }
  destruct (AssemblerFacts.generateFinalPdf_Return P files layout pages bytes log Hrun)
    as (groups & Hchunks & Hcount & _).
  pose proof (chunkPages_Some_positive _ _ _ Hne Hchunks) as Hn.
  destruct (chunk_of_index _ _ _ Hn Hchunks) as (_ & Hceil & _).
  now rewrite Hcount.
Qed.

Lemma sheet_count_witness :
  Z.of_nat
    (sheetsIn
       (snd (generateFinalPdf Fake.platform Fake.files (Fake.layout 4 false)
               (map (fun i => Fake.page i true 0) [0; 1; 2; 3; 4; 5; 6; 7; 8]%Z) [])))
  = 3%Z.
Proof.
  rewrite (sheet_count Fake.platform Fake.files (Fake.layout 4 false)
             (map (fun i => Fake.page i true 0) [0; 1; 2; 3; 4; 5; 6; 7; 8]%Z)
             (save Fake.platform
                (snd (generateFinalPdf Fake.platform Fake.files (Fake.layout 4 false)
                        (map (fun i => Fake.page i true 0) [0; 1; 2; 3; 4; 5; 6; 7; 8]%Z) [])))
             (snd (generateFinalPdf Fake.platform Fake.files (Fake.layout 4 false)
                     (map (fun i => Fake.page i true 0) [0; 1; 2; 3; 4; 5; 6; 7; 8]%Z) []))
             ltac:(vm_compute; reflexivity)).
  reflexivity.
Defined.

(** A run that returns has drawn one border per selected page when borders
    are shown, and none otherwise. *)
Theorem one_border_per_page (P : Platform) (files : gmap string UploadedFile)
    (layout : LayoutSettings) (pages : list PageItem) (bytes : list Z)
    (log : list EncoderCall) :
  generateFinalPdf P files layout pages [] = (Return bytes, log) ->
  length (List.filter Log.isBorder log)
  = if showBorders layout then length (activePages pages) else 0.
Proof.
  intros Hrun.
  assert (Hne : activePages pages <> []).
  { rewrite generateFinalPdf_cases in Hrun.
    destruct (activePages pages); [discriminate | congruence]. }
  apply generateFinalPdf_exact in Hrun as (groups & sheets & Hchunks & Hsheets & -> & _).
  pose proof (chunkPages_Some_positive _ _ _ Hne Hchunks) as Hn.
  destruct (chunk_of_index _ _ _ Hn Hchunks) as (Hcat & _ & _).
  destruct (composed_concat P files groups sheets Hsheets) as [_ Hlen].
  change (Create :: documentCalls layout 0 sheets ++ [Save])
    with ([Create] ++ documentCalls layout 0 sheets ++ [Save]).
  rewrite !List.filter_app, !length_app, borders_documentCalls, Hlen, Hcat.
  cbn. destruct (showBorders layout); lia.
Qed.

Lemma one_border_per_page_witness :
  length
    (List.filter Log.isBorder
       (snd (generateFinalPdf Fake.platform Fake.files (Fake.layout 2 true)
               [Fake.page 0 true 0; Fake.page 1 false 0; Fake.page 2 true 90] [])))
  = 2.
Proof.
  exact (one_border_per_page Fake.platform Fake.files (Fake.layout 2 true)
           [Fake.page 0 true 0; Fake.page 1 false 0; Fake.page 2 true 90]
           (save Fake.platform
              (snd (generateFinalPdf Fake.platform Fake.files (Fake.layout 2 true)
                      [Fake.page 0 true 0; Fake.page 1 false 0; Fake.page 2 true 90] [])))
           (snd (generateFinalPdf Fake.platform Fake.files (Fake.layout 2 true)
                   [Fake.page 0 true 0; Fake.page 1 false 0; Fake.page 2 true 90] []))
           ltac:(vm_compute; reflexivity)).
Defined.

Lemma grows_bind {A B} (m : M A) (k : A -> M B) :
  grows m -> (forall a, grows (k a)) -> grows (bind m k).
Proof.
  intros Hm Hk log. destruct (Hm log) as [calls Hcalls]. unfold bind.
  destruct (m log) as [[a | msg |] mid]; cbn [snd] in *; subst mid;
    try (now exists calls).
  destruct (Hk a (log ++ calls)) as [calls' ->].
  exists (calls ++ calls'). now rewrite app_assoc.
Qed.

Lemma grows_same {A} (o : Outcome A) : grows (fun log => (o, log)).
Proof. intros log. exists []. now rewrite app_nil_r. Qed.

Lemma grows_call (c : EncoderCall) : grows (call c).
Proof. intros log. now exists [c]. Qed.

Lemma grows_sheets (P : Platform) (files : gmap string UploadedFile)
    (layout : LayoutSettings) (groups : list (list PageItem)) :
  grows (forOf groups (drawSheet P files layout)).
Proof.
  induction groups as [| chunk rest IH]; cbn [forOf]; [apply (grows_same (Return tt)) |].
  apply grows_bind; [| intros _; exact IH].
  unfold drawSheet. apply grows_bind.
  { intros log. now exists [AddPage PAGE_WIDTH PAGE_HEIGHT]. }
  intros page. generalize 0%Z.
  induction chunk as [| pageItem chunk IHc]; intros i; cbn [forIndex];
    [apply (grows_same (Return tt)) |].
  apply grows_bind; [| intros _; apply IHc].
  unfold drawCell.
  apply grows_bind; [apply grows_same |]. intros jpeg.
  apply grows_bind.
  { unfold embed. apply grows_bind; [apply grows_call | intros _; apply grows_same]. }
  intros image. apply grows_bind; [apply grows_call |]. intros _.
  destruct (showBorders layout); [apply grows_call | apply (grows_same (Return tt))].
Qed.

(** The sheets keep a property of the calls that the calls of a sheet
    have. *)
Lemma keeps_sheets (P : Platform) (files : gmap string UploadedFile)
    (layout : LayoutSettings) (Q : EncoderCall -> Prop) (groups : list (list PageItem)) :
  Q (AddPage PAGE_WIDTH PAGE_HEIGHT) ->
  (forall jpeg, Q (EmbedJpg jpeg)) ->
  (forall page i image, Q (drawImageCall page (nUp layout) i image)) ->
  (showBorders layout = true -> forall page i, Q (cellBorder page (nUp layout) i)) ->
  keeps Q (forOf groups (drawSheet P files layout)).
Proof.
  intros Hadd Hembed Hdraw Hborder.
  apply AssemblerFacts.keeps_forOf. intros chunk.
  unfold drawSheet. apply AssemblerFacts.keeps_bind.
  - intros log Hlog. cbn. apply Forall_app. split; [exact Hlog | now constructor].
  - intros page. apply AssemblerFacts.keeps_forIndex. intros i pageItem.
    unfold drawCell.
    apply AssemblerFacts.keeps_bind; [apply AssemblerFacts.keeps_lift |]. intros jpeg.
    apply AssemblerFacts.keeps_bind.
    { unfold embed. apply AssemblerFacts.keeps_bind;
        [now apply AssemblerFacts.keeps_call | intros _; apply AssemblerFacts.keeps_lift]. }
    intros image.
    apply AssemblerFacts.keeps_bind; [now apply AssemblerFacts.keeps_call |]. intros _.
    destruct (showBorders layout) eqn:Hb;
      [apply AssemblerFacts.keeps_call; now apply Hborder | apply AssemblerFacts.keeps_ret].
Qed.

(** Without [showBorders] no run, returning or not, draws a rectangle. *)
Theorem no_border_unless_shown (P : Platform) (files : gmap string UploadedFile)
    (layout : LayoutSettings) (pages : list PageItem) :
  showBorders layout = false ->
  Forall (fun c => Log.isBorder c = false)
         (snd (generateFinalPdf P files layout pages [])).
Proof.
  intros Hoff. rewrite generateFinalPdf_cases.
  destruct (length (activePages pages) =? 0); [repeat constructor |].
  destruct (chunkPages (activePages pages) (nUp layout)) as [groups |];
    [| repeat constructor].
  assert (Hkeeps : Forall (fun c => Log.isBorder c = false)
                     (snd (forOf groups (drawSheet P files layout) [Create]))).
  { apply (keeps_sheets P files layout (fun c => Log.isBorder c = false) groups).
    - reflexivity.
    - intros jpeg. reflexivity.
    - intros page i image. unfold drawImageCall.
      now destruct (placeImage (nUp layout) i image) as [[[x y] w] h].
    - rewrite Hoff. discriminate.
    - repeat constructor. }
  destruct (forOf groups (drawSheet P files layout) [Create]) as [[[] | msg |] log];
    cbn [snd] in *; try exact Hkeeps.
  apply Forall_app. split; [exact Hkeeps | repeat constructor].
Qed.

Lemma no_border_unless_shown_witness :
  Forall (fun c => Log.isBorder c = false)
         (snd (generateFinalPdf Fake.platform Fake.files (Fake.layout 2 false)
                 [Fake.page 0 true 0; Fake.page 2 true 90] [])).
Proof.
  exact (no_border_unless_shown Fake.platform Fake.files (Fake.layout 2 false)
           [Fake.page 0 true 0; Fake.page 2 true 90] eq_refl).
Defined.

(** Every run starts by creating the document.  A run that returns ends
    with the one [save] of the run and returns what it gave; a run that
    does not return has not saved: no partial document is serialized. *)
Theorem saved_once_and_only_at_the_end (P : Platform) (files : gmap string UploadedFile)
    (layout : LayoutSettings) (pages : list PageItem) :
  exists rest : list EncoderCall,
    snd (generateFinalPdf P files layout pages []) = Create :: rest /\
    match fst (generateFinalPdf P files layout pages []) with
    | Return bytes =>
        exists calls : list EncoderCall,
          rest = calls ++ [Save] /\
          Forall (fun c => Log.isSave c = false) calls /\
          bytes = save P (Create :: rest)
    | _ => Forall (fun c => Log.isSave c = false) rest
    end.
Proof.
  rewrite generateFinalPdf_cases.
  destruct (length (activePages pages) =? 0); [exists []; split; [reflexivity | constructor] |].
  destruct (chunkPages (activePages pages) (nUp layout)) as [groups |];
    [| exists []; split; [reflexivity | constructor]].
  assert (Hkeeps : Forall (fun c => Log.isSave c = false)
                     (snd (forOf groups (drawSheet P files layout) [Create]))).
  { apply (keeps_sheets P files layout (fun c => Log.isSave c = false) groups).
    - reflexivity.
    - intros jpeg. reflexivity.
    - intros page i image. unfold drawImageCall.
      now destruct (placeImage (nUp layout) i image) as [[[x y] w] h].
    - intros _ page i. reflexivity.
    - repeat constructor. }
  destruct (grows_sheets P files layout groups [Create]) as [rest Hrest].
  cbn [app] in Hrest.
  destruct (forOf groups (drawSheet P files layout) [Create]) as [[[] | msg |] log];
    cbn [fst snd] in *; subst log; inversion Hkeeps as [| ? ? _ Hrest']; subst.
  - exists (rest ++ [Save]). split; [reflexivity |].
    exists rest. repeat split; assumption.
  - exists rest. split; [reflexivity | assumption].
  - exists rest. split; [reflexivity | assumption].
Qed.

(** When a selected page cannot be composited or embedded (its file is
    missing, it does not rasterize, no canvas is to be had, the encoder
    rejects its JPEG), the run does not return a document. *)
Theorem failing_page_fails_document (P : Platform) (files : gmap string UploadedFile)
    (layout : LayoutSettings) (pages : list PageItem) (pageItem : PageItem) :
  In pageItem (activePages pages) ->
  (forall cell, ~ composed P files pageItem cell) ->
  forall bytes, fst (generateFinalPdf P files layout pages []) <> Return bytes.
Proof.
  intros Hin Hfail bytes Hret.
  assert (Hrun : generateFinalPdf P files layout pages []
                 = (Return bytes, snd (generateFinalPdf P files layout pages []))).
  { rewrite <- Hret. now destruct (generateFinalPdf P files layout pages []). }
  assert (Hne : activePages pages <> []) by (intros He; now rewrite He in Hin).
  apply generateFinalPdf_exact in Hrun as (groups & sheets & Hchunks & Hsheets & _ & _).
  pose proof (chunkPages_Some_positive _ _ _ Hne Hchunks) as Hn.
  destruct (chunk_of_index _ _ _ Hn Hchunks) as (_ & _ & Hpos).
  apply list_elem_of_In, list_elem_of_lookup_1 in Hin as [q Hq].
  destruct (Hpos q pageItem Hq) as (chunk & Hj & Ht).
  destruct (Forall2_lookup_l _ _ _ _ _ Hsheets Hj) as (cells & _ & Hchunk).
  destruct (Forall2_lookup_l _ _ _ _ _ Hchunk Ht) as (cell & _ & Hcomposed).
  exact (Hfail cell Hcomposed).
Qed.

Lemma failing_page_fails_document_witness :
  Fake.files !! "f2" = None /\
  forall bytes,
    fst (generateFinalPdf Fake.platform Fake.files (Fake.layout 2 true)
           [Fake.page 0 true 0;
            {| id := "q"; fileId := "f2"; originalPageIndex := 0%Z; isSelected := true;
               rotation := 0%Z; filters := Filter.neutral; drawingDataUrl := None |}] [])
    <> Return bytes.
Proof.
  split; [reflexivity |].
  apply (failing_page_fails_document Fake.platform Fake.files (Fake.layout 2 true)
           [Fake.page 0 true 0;
            {| id := "q"; fileId := "f2"; originalPageIndex := 0%Z; isSelected := true;
               rotation := 0%Z; filters := Filter.neutral; drawingDataUrl := None |}]
           {| id := "q"; fileId := "f2"; originalPageIndex := 0%Z; isSelected := true;
              rotation := 0%Z; filters := Filter.neutral; drawingDataUrl := None |}).
  - right. now left.
  - intros cell [Hjpeg _]. vm_compute in Hjpeg. discriminate.
Defined.

End AssemblerExtras.

(** ** More on the page compositor *)

Module CompositorExtras.
Import Model Compositor.

(** With neutral filters and no doodle the canvas that is encoded holds the
    page as it was drawn through the rotation, sample for sample.  Nothing
    is encoded in two cases: when the image of the rasterized page does not
    load the compositor waits for ever, and on a canvas without pixels the
    filter pass throws. *)
Theorem neutral_page_is_the_raster (P : Platform) (files : gmap string UploadedFile)
    (pageItem : PageItem) (file : UploadedFile) (thumb : Thumbnail) :
  files !! fileId pageItem = Some file ->
  renderPageToThumbnail P (data file) (originalPageIndex pageItem) 1.5%float
  = Return thumb ->
  getContext2d P = true ->
  filters pageItem = Filter.neutral ->
  drawingDataUrl pageItem = None ->
  Filter.samples (pixels (setupCanvas P pageItem thumb)) ->
  compositeCanvas P files pageItem
  = if imageLoads P (dataUrl thumb) then
      if isEmpty (setupCanvas P pageItem thumb) then Throw "IndexSizeError"
      else Return (setupCanvas P pageItem thumb)
    else Diverge.
Proof.
  intros Hfile Hthumb Hctx Hneutral Hdoodle Hsamples.
  unfold compositeCanvas. rewrite Hfile, Hthumb, Hctx, Hneutral.
  destruct (imageLoads P (dataUrl thumb)); [| reflexivity].
  unfold applyFilters.
  destruct (isEmpty (setupCanvas P pageItem thumb)); [reflexivity |].
  destruct (FilterExtras.lookup_color
              {| Filter.width := canvas_width (setupCanvas P pageItem thumb);
                 Filter.height := canvas_height (setupCanvas P pageItem thumb);
                 Filter.data := pixels (setupCanvas P pageItem thumb) |}
              Filter.neutral eq_refl) as (out & Hrun & Hout).
  rewrite Hrun. cbn [Filter.data] in Hout.
  destruct (FilterFacts.applyFilters_lookup
              {| Filter.width := canvas_width (setupCanvas P pageItem thumb);
                 Filter.height := canvas_height (setupCanvas P pageItem thumb);
                 Filter.data := pixels (setupCanvas P pageItem thumb) |}
              Filter.neutral) as (px & Hrun' & Hlen & _).
  rewrite Hrun in Hrun'. injection Hrun' as ->. cbn [Filter.data] in *.
  assert (Hpx : px = pixels (setupCanvas P pageItem thumb)).
  { apply list_eq. intros k.
    destruct (pixels (setupCanvas P pageItem thumb) !! k) as [v |] eqn:Hv.
    - rewrite (Hout k v Hv). f_equal.
      destruct (Nat.eqb (k mod 4) 3); [reflexivity |].
      apply FilterFacts.neutral_sample.
      exact (Forall_lookup_1 _ _ _ _ Hsamples Hv).
    - apply lookup_ge_None. rewrite Hlen. now apply lookup_ge_None. }
  rewrite Hpx. unfold applyDoodle, hasDoodle. rewrite Hdoodle.
  now destruct (setupCanvas P pageItem thumb).
Qed.

Lemma neutral_page_is_the_raster_witness :
  compositeCanvas Fake.platform Fake.files (Fake.page 2 true 90)
  = Return {| canvas_width := 2; canvas_height := 3; pixels := repeat 255%Z 24 |}.
Proof.
  apply (neutral_page_is_the_raster Fake.platform Fake.files (Fake.page 2 true 90)
           Fake.file Fake.thumbnail);
    try reflexivity.
  cbn. repeat constructor; lia.
Defined.

End CompositorExtras.

(** ** The dashboard *)

Module DashboardFacts.
Import Model Dashboard.

#[local] Open Scope Z_scope.

Lemma withRotation_same (p : PageItem) : withRotation p (rotation p) = p.
Proof. now destruct p. Qed.

Lemma withSelected_same (p : PageItem) : withSelected p (isSelected p) = p.
Proof. now destruct p. Qed.

Lemma map_same {A} (h : A -> A) (l : list A) :
  (forall x, In x l -> h x = x) -> map h l = l.
Proof.
  induction l as [| x l IH]; intros Hh; [reflexivity |].
  cbn [map]. rewrite Hh by now left. f_equal. apply IH. intros y Hy. apply Hh. now right.
Qed.

Lemma lookup_map {A B} (h : A -> B) (l : list A) (k : nat) :
  map h l !! k = option_map h (l !! k).
Proof.
  revert k. induction l as [| x l IH]; intros [| k]; try reflexivity. apply IH.
Qed.

(** A quarter turn takes a rotation of 0, 90, 180 or 270 to the next one. *)
Lemma next_quarterTurn (r : Z) :
  quarterTurn r ->
  quarterTurn (Z.rem (r + 90) 360) /\
  Z.rem (Z.rem (Z.rem (Z.rem (r + 90) 360 + 90) 360 + 90) 360 + 90) 360 = r /\
  ((Z.rem (r + 90) 360 =? 90) || (Z.rem (r + 90) 360 =? 270)
   = negb ((r =? 90) || (r =? 270))).
Proof.
  unfold quarterTurn. intros [-> | [-> | [-> | ->]]]; cbn; repeat split; auto.
Qed.

Lemma four_turns (pageId : string) (p : PageItem) :
  quarterTurn (rotation p) ->
  let turn := fun p : PageItem =>
                if String.eqb (id p) pageId
                then withRotation p (Z.rem (rotation p + 90) 360) else p in
  turn (turn (turn (turn p))) = p.
Proof.
  intros Hr turn.
  assert (Hid_turn : forall q, id (turn q) = id q).
  { intros q. unfold turn. now destruct (String.eqb (id q) pageId). }
  destruct (String.eqb (id p) pageId) eqn:Hid.
  - assert (Hstep : forall q, id q = id p ->
              turn q = withRotation q (Z.rem (rotation q + 90) 360)).
    { intros q Hq. unfold turn. now rewrite Hq, Hid. }
    rewrite (Hstep (turn (turn (turn p)))) by now rewrite !Hid_turn.
    rewrite (Hstep (turn (turn p))) by now rewrite !Hid_turn.
    rewrite (Hstep (turn p)) by now rewrite !Hid_turn.
    rewrite (Hstep p) by reflexivity.
    destruct p as [pid fid idx sel rot fil dr]. unfold withRotation.
    cbn [id rotation fileId originalPageIndex isSelected filters drawingDataUrl] in *.
    f_equal. now apply next_quarterTurn.
  - assert (Hstep : forall q, id q = id p -> turn q = q).
    { intros q Hq. unfold turn. now rewrite Hq, Hid. }
    rewrite (Hstep p) by reflexivity. rewrite (Hstep p) by reflexivity.
    rewrite (Hstep p) by reflexivity. now apply Hstep.
Qed.

(** [rotatePage] turns the pages of the given id by a quarter: a rotation of
    0, 90, 180 or 270 stays one, the turned pages change between upright and
    sideways, the other pages are left as they are, and four turns bring
    every page back. *)
Theorem rotatePage_quarter_turns (pageId : string) (pages : list PageItem) :
  Forall (fun p => quarterTurn (rotation p)) pages ->
  Forall (fun p => quarterTurn (rotation p)) (rotatePage pageId pages) /\
  (forall (k : nat) (p : PageItem),
      pages !! k = Some p ->
      rotatePage pageId pages !! k
      = Some (if String.eqb (id p) pageId
              then withRotation p (Z.rem (rotation p + 90) 360) else p) /\
      (id p = pageId ->
       Compositor.isRotated90or270 (withRotation p (Z.rem (rotation p + 90) 360))
       = negb (Compositor.isRotated90or270 p))) /\
  rotatePage pageId (rotatePage pageId (rotatePage pageId (rotatePage pageId pages)))
  = pages.
Proof.
  intros Hvalid. split; [| split].
  - unfold rotatePage. apply Forall_map. apply (Forall_impl _ _ _ Hvalid).
    intros p Hp. destruct (String.eqb (id p) pageId); [| exact Hp].
    cbn [rotation withRotation]. now apply next_quarterTurn.
  - intros k p Hk. split.
    + unfold rotatePage. rewrite lookup_map. now rewrite Hk.
    + intros _. unfold Compositor.isRotated90or270. cbn [rotation withRotation].
      apply next_quarterTurn. exact (Forall_lookup_1 _ _ _ _ Hvalid Hk).
  - unfold rotatePage. rewrite !map_map. apply map_same. intros p Hp.
    apply (four_turns pageId p).
    rewrite Forall_forall in Hvalid. apply Hvalid. now apply list_elem_of_In.
Qed.

Lemma rotatePage_quarter_turns_witness :
  Forall (fun p => quarterTurn (rotation p)) [Fake.page 0 true 270; Fake.page 1 true 0] /\
  rotatePage "p" (rotatePage "p" (rotatePage "p" (rotatePage "p"
    [Fake.page 0 true 270; Fake.page 1 true 0])))
  = [Fake.page 0 true 270; Fake.page 1 true 0].
Proof.
  assert (Hvalid : Forall (fun p => quarterTurn (rotation p))
                     [Fake.page 0 true 270; Fake.page 1 true 0]).
  { constructor; [unfold quarterTurn; cbn; auto |].
    constructor; [unfold quarterTurn; cbn; auto | constructor]. }
  split; [exact Hvalid |].
  exact (proj2 (proj2 (rotatePage_quarter_turns "p"
                         [Fake.page 0 true 270; Fake.page 1 true 0] Hvalid))).
Defined.

Lemma turn_and_back (r : Z) :
  quarterTurn r ->
  quarterTurn (Z.rem (r + 90 + 360) 360) /\
  quarterTurn (Z.rem (r + -90 + 360) 360) /\
  Z.rem (Z.rem (r + 90 + 360) 360 + -90 + 360) 360 = r /\
  Z.rem (Z.rem (r + -90 + 360) 360 + 90 + 360) 360 = r.
Proof.
  unfold quarterTurn. intros [-> | [-> | [-> | ->]]]; cbn; repeat split; auto.
Qed.

(** [rotateAll] by a quarter turn either way keeps every rotation one of 0,
    90, 180 and 270, and the opposite turn undoes it. *)
Theorem rotateAll_undone (pages : list PageItem) :
  Forall (fun p => quarterTurn (rotation p)) pages ->
  Forall (fun p => quarterTurn (rotation p)) (rotateAll 90 pages) /\
  Forall (fun p => quarterTurn (rotation p)) (rotateAll (-90) pages) /\
  rotateAll (-90) (rotateAll 90 pages) = pages /\
  rotateAll 90 (rotateAll (-90) pages) = pages.
Proof.
  intros Hvalid.
  assert (Hin : forall p, In p pages -> quarterTurn (rotation p)).
  { intros p Hp. rewrite Forall_forall in Hvalid. apply Hvalid. now apply list_elem_of_In. }
  unfold rotateAll. repeat split.
  - apply Forall_map. apply (Forall_impl _ _ _ Hvalid). intros p Hp.
    cbn [rotation withRotation]. now apply turn_and_back.
  - apply Forall_map. apply (Forall_impl _ _ _ Hvalid). intros p Hp.
    cbn [rotation withRotation]. now apply turn_and_back.
  - rewrite map_map. apply map_same. intros p Hp.
    destruct p as [pid fid idx sel rot fil dr]. unfold withRotation.
    cbn [id rotation fileId originalPageIndex isSelected filters drawingDataUrl].
    f_equal. apply turn_and_back. exact (Hin _ Hp).
  - rewrite map_map. apply map_same. intros p Hp.
    destruct p as [pid fid idx sel rot fil dr]. unfold withRotation.
    cbn [id rotation fileId originalPageIndex isSelected filters drawingDataUrl].
    f_equal. apply turn_and_back. exact (Hin _ Hp).
Qed.

Lemma rotateAll_undone_witness :
  Forall (fun p => quarterTurn (rotation p)) [Fake.page 0 true 0; Fake.page 1 false 270] /\
  rotateAll (-90) (rotateAll 90 [Fake.page 0 true 0; Fake.page 1 false 270])
  = [Fake.page 0 true 0; Fake.page 1 false 270].
Proof.
  assert (Hvalid : Forall (fun p => quarterTurn (rotation p))
                     [Fake.page 0 true 0; Fake.page 1 false 270]).
  { constructor; [unfold quarterTurn; cbn; auto |].
    constructor; [unfold quarterTurn; cbn; auto | constructor]. }
  split; [exact Hvalid |].
  exact (proj1 (proj2 (proj2 (rotateAll_undone
                                [Fake.page 0 true 0; Fake.page 1 false 270] Hvalid)))).
Defined.

(** [toggleSelect] on the same id twice leaves the pages as they were. *)
Theorem toggleSelect_twice (pageId : string) (pages : list PageItem) :
  toggleSelect pageId (toggleSelect pageId pages) = pages.
Proof.
  unfold toggleSelect. rewrite map_map. apply map_same. intros p _.
  destruct (String.eqb (id p) pageId) eqn:Hid; cbn [id withSelected]; rewrite Hid;
    [| reflexivity].
  destruct p as [pid fid idx sel rot fil dr]. unfold withSelected.
  cbn [id rotation fileId originalPageIndex isSelected filters drawingDataUrl].
  now rewrite negb_involutive.
Qed.

Lemma filter_all {A} (h : A -> bool) (b : bool) (l : list A) :
  (forall x, In x l -> h x = b) -> List.filter h l = if b then l else [].
Proof.
  induction l as [| x l IH]; intros Hh; [now destruct b |].
  cbn [List.filter]. rewrite (Hh x) by now left.
  rewrite IH by (intros y Hy; apply Hh; now right). now destruct b.
Qed.

(** [toggleSelectAll] unselects every page when all were selected and
    selects every page otherwise; it changes nothing else. *)
Theorem toggleSelectAll_all_or_none (pages : list PageItem) :
  Assembler.activePages (toggleSelectAll pages)
  = (if forallb isSelected pages then [] else toggleSelectAll pages) /\
  forall b : bool,
    map (fun p => withSelected p b) (toggleSelectAll pages)
    = map (fun p => withSelected p b) pages.
Proof.
  split.
  - unfold Assembler.activePages.
    rewrite (filter_all isSelected (negb (forallb isSelected pages))).
    + now destruct (forallb isSelected pages).
    + unfold toggleSelectAll. intros p Hp. apply in_map_iff in Hp as (p0 & <- & _).
      reflexivity.
  - intros b. unfold toggleSelectAll. rewrite map_map. reflexivity.
Qed.

(** With every page selected, "Toggle All" and then "Download" ends in the
    alert: the assembler throws "No pages selected", nothing is saved, and
    the generating state is switched off again. *)
Theorem nothing_selected_alerts (P : Platform) (files : gmap string UploadedFile)
    (layout : LayoutSettings) (pages : list PageItem) :
  forallb isSelected pages = true ->
  handleDownload P files layout (toggleSelectAll pages)
  = ([SetIsGenerating true;
      ConsoleError "No pages selected";
      Alert "Failed to generate PDF. Please try again.";
      SetIsGenerating false], true).
Proof.
  intros Hall. unfold handleDownload.
  rewrite AssemblerExtras.generateFinalPdf_cases.
  assert (Hnone : Assembler.activePages (toggleSelectAll pages) = []).
  { unfold Assembler.activePages.
    rewrite (filter_all isSelected false); [reflexivity |].
    unfold toggleSelectAll. rewrite Hall.
    intros p Hp. apply in_map_iff in Hp as (p0 & <- & _). reflexivity. }
  rewrite Hnone. reflexivity.
Qed.

Lemma nothing_selected_alerts_witness :
  forallb isSelected [Fake.page 0 true 0; Fake.page 1 true 90] = true /\
  handleDownload Fake.platform Fake.files (Fake.layout 4 false)
    (toggleSelectAll [Fake.page 0 true 0; Fake.page 1 true 90])
  = ([SetIsGenerating true;
      ConsoleError "No pages selected";
      Alert "Failed to generate PDF. Please try again.";
      SetIsGenerating false], true).
Proof.
  split; [reflexivity |].
  exact (nothing_selected_alerts Fake.platform Fake.files (Fake.layout 4 false)
           [Fake.page 0 true 0; Fake.page 1 true 90] eq_refl).
Defined.

(** When every page carries the filters the ink saver writes (on, or off:
    the neutral ones), toggling the ink saver twice gives the pages back;
    the first toggle puts the other setting on every page. *)
Theorem toggleInkSaver_twice (pages : list PageItem) (on : bool) :
  pages <> [] ->
  Forall (fun p => filters p = inkSaver on) pages ->
  exists toggled : list PageItem,
    toggleInkSaver pages = Return toggled /\
    Forall (fun p => filters p = inkSaver (negb on)) toggled /\
    toggleInkSaver toggled = Return pages.
Proof.
  intros Hne Hall.
  destruct pages as [| first rest]; [congruence |].
  assert (Hfirst : Filter.invert (filters first) = on).
  { inversion Hall as [| ? ? Hf _]; subst. rewrite Hf. now destruct on. }
  eexists. split; [reflexivity |]. rewrite Hfirst. split.
  - apply Forall_map. apply Forall_forall. intros p _. reflexivity.
  - cbn [toggleInkSaver map filters withFilters Filter.invert inkSaver].
    rewrite negb_involutive. f_equal.
    change (map (fun p => withFilters p (inkSaver on))
                (map (fun p => withFilters p (inkSaver (negb on))) (first :: rest))
            = first :: rest).
    rewrite map_map. apply map_same. intros p Hp.
    assert (Hf : filters p = inkSaver on).
    { rewrite Forall_forall in Hall. apply Hall. now apply list_elem_of_In. }
    destruct p as [pid fid idx sel rot fil dr]. unfold withFilters.
    cbn [id rotation fileId originalPageIndex isSelected filters drawingDataUrl] in *.
    now rewrite Hf.
Qed.

Lemma toggleInkSaver_twice_witness :
  [Fake.page 0 true 0; Fake.page 1 false 90] <> [] /\
  exists toggled : list PageItem,
    toggleInkSaver [Fake.page 0 true 0; Fake.page 1 false 90] = Return toggled /\
    toggleInkSaver toggled = Return [Fake.page 0 true 0; Fake.page 1 false 90].
Proof.
  split; [discriminate |].
  destruct (toggleInkSaver_twice [Fake.page 0 true 0; Fake.page 1 false 90] false
              ltac:(discriminate) ltac:(repeat constructor))
    as (toggled & Hone & _ & Htwo).
  exists toggled. split; assumption.
Defined.

(** For the layouts the grid buttons offer (1, 2, 4, 6 and 8 pages per
    sheet) the sheet on screen is cut into as many columns and rows as the
    sheet of the document; for 3, 5 and 7 it is not. *)
Theorem preview_grid_matches (n : Z) :
  1 <= n <= 8 ->
  (cellsAcross (fst (previewClasses n)) = Assembler.cols n /\
   cellsAcross (snd (previewClasses n)) = Assembler.rows n)
  <-> In n offeredLayouts.
Proof.
  intros Hn.
  assert (Hcases : n = 1 \/ n = 2 \/ n = 3 \/ n = 4 \/ n = 5 \/ n = 6 \/ n = 7 \/ n = 8)
    by lia.
  unfold offeredLayouts.
  destruct Hcases as [-> | [-> | [-> | [-> | [-> | [-> | [-> | ->]]]]]]];
    vm_compute; split;
    try (intros _; split; reflexivity);
    try (intros _; intuition congruence);
    try (intros [H1 H2]; discriminate);
    try (intros H; repeat destruct H as [H | H]; try discriminate; contradiction).
Qed.

Lemma preview_grid_matches_witness :
  1 <= 6 <= 8 /\
  cellsAcross (fst (previewClasses 6)) = Assembler.cols 6 /\
  cellsAcross (snd (previewClasses 6)) = Assembler.rows 6.
Proof.
  split; [lia |].
  apply (preview_grid_matches 6); [lia |].
  unfold offeredLayouts. cbn. auto.
Defined.

End DashboardFacts.

(** ** The service worker *)

Module ServiceWorkerFacts.
Import ServiceWorker.

Lemma In_delete (cacheName : string) (storage : CacheStorage) (entry : string * Cache) :
  In entry (delete cacheName storage) <-> In entry storage /\ fst entry <> cacheName.
Proof.
  unfold delete. rewrite List.filter_In, negb_true_iff, String.eqb_neq. reflexivity.
Qed.

Lemma In_deleted (storage : CacheStorage) (names : list string) (entry : string * Cache) :
  In entry
     (fold_right
        (fun cacheName st =>
           if negb (String.eqb cacheName CACHE_NAME) then delete cacheName st else st)
        storage names)
  <-> In entry storage /\ (In (fst entry) names -> fst entry = CACHE_NAME).
Proof.
  induction names as [| cacheName names IH]; cbn [fold_right].
  - split; [intros H; split; [exact H | intros []] | intros [H _]; exact H].
  - destruct (String.eqb_spec cacheName CACHE_NAME) as [Heq | Hneq]; cbn [negb].
    + rewrite IH. split; intros [Hin Hnames]; (split; [exact Hin |]).
      * intros [<- | Hn]; [exact Heq | now apply Hnames].
      * intros Hn. apply Hnames. now right.
    + rewrite In_delete, IH. split.
      * intros [[Hin Hnames] Hother]. split; [exact Hin |].
        intros [Hn | Hn]; [congruence | now apply Hnames].
      * intros [Hin Hnames]. split; [split; [exact Hin |] |].
        -- intros Hn. apply Hnames. now right.
        -- intros Hn. apply Hneq. rewrite <- Hn. apply Hnames. now left.
Qed.

(** Once the worker is activated the storage holds the cache named
    [CACHE_NAME], as it was, and no other cache. *)
Theorem activate_keeps_current_cache_only (storage : CacheStorage)
    (cacheName : string) (cache : Cache) :
  In (cacheName, cache) (activate storage)
  <-> In (cacheName, cache) storage /\ cacheName = CACHE_NAME.
Proof.
  unfold activate. rewrite In_deleted. cbn [fst]. split.
  - intros [Hin Hname]. split; [exact Hin |]. apply Hname.
    unfold keys. now apply (in_map fst) in Hin.
  - intros [Hin Hname]. split; [exact Hin | intros _; exact Hname].
Qed.

(** A response put in the cache answers the next match of its request,
    when no cache answered it before. *)
Lemma match_put_new (storage : CacheStorage) (url : string) (response : Response) :
  cachesMatch storage url = None ->
  cachesMatch (put storage url response) url = Some response.
Proof.
  induction storage as [| [cacheName cache] rest IH]; cbn [cachesMatch put];
    unfold Cache in *.
  - intros _. now rewrite lookup_singleton_eq.
  - destruct (cache !! url) as [cached |] eqn:Hcache; [discriminate |]. intros Hrest.
    destruct (String.eqb cacheName CACHE_NAME); cbn [cachesMatch].
    + unfold Cache. now rewrite lookup_insert_eq.
    + unfold Cache. rewrite Hcache. now apply IH.
Qed.

(** Putting a response for another request leaves the match of this one
    as it was. *)
Lemma match_put_other (storage : CacheStorage) (url other : string) (response : Response) :
  other <> url ->
  cachesMatch (put storage other response) url = cachesMatch storage url.
Proof.
  intros Hne.
  induction storage as [| [cacheName cache] rest IH]; cbn [cachesMatch put];
    unfold Cache in *.
  - now rewrite lookup_singleton_ne.
  - destruct (String.eqb cacheName CACHE_NAME); cbn [cachesMatch]; unfold Cache.
    + now rewrite lookup_insert_ne.
    + now rewrite IH.
Qed.

(** Putting again the response that answers a request leaves its answer as
    it was. *)
Lemma match_put_same (storage : CacheStorage) (url : string) (response : Response) :
  cachesMatch storage url = Some response ->
  cachesMatch (put storage url response) url = Some response.
Proof.
  induction storage as [| [cacheName cache] rest IH]; cbn [cachesMatch put];
    unfold Cache in *.
  - discriminate.
  - destruct (String.eqb cacheName CACHE_NAME); cbn [cachesMatch]; unfold Cache.
    + intros _. now rewrite lookup_insert_eq.
    + destruct (cache !! url) as [cached |]; [trivial | exact IH].
Qed.

(** A fetch event that brings nothing new for a request leaves its answer
    from the cache as it was. *)
Lemma match_after_fetch (storage : CacheStorage) (url : string) (response : Response)
    (event : FetchEvent) :
  cachesMatch storage url = Some response ->
  bringsNothingNew url response event ->
  cachesMatch (snd (fetchHandler (fst event) storage (snd event))) url = Some response.
Proof.
  intros Hhit Hnew. destruct event as [network other]. cbn [fst snd] in *.
  unfold bringsNothingNew in Hnew. cbn [fst snd] in Hnew.
  destruct (String.eqb_spec other url) as [-> | Hne].
  - unfold fetchHandler. rewrite Hhit. cbn [snd].
    destruct (network url) as [fresh |] eqn:Hnet; [| exact Hhit].
    destruct (cacheable fresh) eqn:Hok; [| exact Hhit].
    rewrite (Hnew eq_refl fresh eq_refl Hok). now apply match_put_same.
  - unfold fetchHandler.
    destruct (cachesMatch storage other) as [cached |]; cbn [snd];
      destruct (network other) as [fresh |]; try exact Hhit;
      destruct (cacheable fresh); cbn [negb snd]; try exact Hhit;
      now rewrite match_put_other.
Qed.

Lemma match_after_fetchAll (events : list FetchEvent) (storage : CacheStorage)
    (url : string) (response : Response) :
  cachesMatch storage url = Some response ->
  Forall (bringsNothingNew url response) events ->
  cachesMatch (fetchAll events storage) url = Some response.
Proof.
  revert storage. induction events as [| event events IH]; intros storage Hhit Hall.
  - exact Hhit.
  - apply Forall_cons_1 in Hall as [Hevent Hevents]. cbn [fetchAll fold_left].
    apply IH; [| exact Hevents]. now apply match_after_fetch.
Qed.

(** A request no cache holds, answered by the network with status 200 and
    type basic, is answered with that response and stored.  After any run
    of fetch events that bring nothing new for it (the network is down, or
    answers it with a response the worker does not store, or with the same
    response; other requests are fetched), a fetch of the request is
    answered with that response from the cache, whatever the network does
    then; in particular the very next fetch is.  A different response of
    status 200 and type basic, fetched behind a cached answer, would
    replace it. *)
Theorem fetched_once_then_cached (network : string -> option Response)
    (storage : CacheStorage) (url : string) (response : Response) :
  cachesMatch storage url = None ->
  network url = Some response ->
  cacheable response = true ->
  fst (fetchHandler network storage url) = Some response /\
  forall (events : list FetchEvent) (later : string -> option Response),
    Forall (bringsNothingNew url response) events ->
    fst (fetchHandler later (fetchAll events (snd (fetchHandler network storage url))) url)
    = Some response.
Proof.
  intros Hmiss Hnet Hok. unfold fetchHandler at 1 3. rewrite Hmiss, Hnet, Hok.
  cbn [negb fst snd]. split; [reflexivity |].
  intros events later Hevents. unfold fetchHandler.
  rewrite (match_after_fetchAll events (put storage url response) url response
             (match_put_new storage url response Hmiss) Hevents).
  reflexivity.
Qed.

Lemma fetched_once_then_cached_witness :
  fst (fetchHandler (fun _ => Some {| status := 200; type := "basic"; body := [1; 2] |})
         [] "/index.html")
  = Some {| status := 200; type := "basic"; body := [1; 2] |} /\
  forall later : string -> option Response,
    fst (fetchHandler later
           (fetchAll
              [(fun _ => None, "/index.html");
               (fun _ => Some {| status := 200; type := "basic"; body := [7] |}, "/logo.png");
               (fun _ => Some {| status := 404; type := "basic"; body := [] |}, "/index.html")]
              (snd (fetchHandler
                      (fun _ => Some {| status := 200; type := "basic"; body := [1; 2] |})
                      [] "/index.html")))
           "/index.html")
    = Some {| status := 200; type := "basic"; body := [1; 2] |}.
Proof.
  destruct (fetched_once_then_cached
              (fun _ => Some {| status := 200; type := "basic"; body := [1; 2] |})
              [] "/index.html" {| status := 200; type := "basic"; body := [1; 2] |}
              eq_refl eq_refl eq_refl) as [Hfirst Hlater].
  split; [exact Hfirst |].
  intros later. apply Hlater.
  repeat constructor; unfold bringsNothingNew; cbn [fst snd];
    intros Hurl fresh Hfresh; try discriminate.
  injection Hfresh as <-. discriminate.
Defined.

(** The response held for a request is replaced by a different one of
    status 200 and type basic fetched behind a cached answer: the third
    answer is not the first. *)
Example refreshed_behind :
  let first := {| status := 200; type := "basic"; body := [1] |} in
  let second := {| status := 200; type := "basic"; body := [2] |} in
  let once := snd (fetchHandler (fun _ => Some first) [] "/") in
  let twice := snd (fetchHandler (fun _ => Some second) once "/") in
  fst (fetchHandler (fun _ => Some second) once "/") = Some first /\
  fst (fetchHandler (fun _ => None) twice "/") = Some second.
Proof. split; reflexivity. Qed.

(** With the current cache alone in the storage (as activation leaves it),
    a cached request is answered from the cache at once and refreshed
    behind: when the network has a new response of status 200 and type
    basic, the next answer is the new one. *)
Theorem stale_then_revalidated (network : string -> option Response) (cache : Cache)
    (url : string) (stale fresh : Response) :
  cache !! url = Some stale ->
  network url = Some fresh ->
  cacheable fresh = true ->
  fst (fetchHandler network [(CACHE_NAME, cache)] url) = Some stale /\
  forall later : string -> option Response,
    fst (fetchHandler later (snd (fetchHandler network [(CACHE_NAME, cache)] url)) url)
    = Some fresh.
Proof.
  intros Hhit Hnet Hok. unfold fetchHandler at 1 3.
  cbn [cachesMatch]. rewrite Hhit, Hnet, Hok. cbn [fst snd put].
  rewrite String.eqb_refl. split; [reflexivity |].
  intros later. unfold fetchHandler. cbn [cachesMatch]. unfold Cache in *.
  now rewrite lookup_insert_eq.
Qed.

Lemma stale_then_revalidated_witness :
  fst (fetchHandler (fun _ => Some {| status := 200; type := "basic"; body := [2] |})
         [(CACHE_NAME, {[ "/" := {| status := 200; type := "basic"; body := [1] |} ]})] "/")
  = Some {| status := 200; type := "basic"; body := [1] |}.
Proof.
  apply (stale_then_revalidated
           (fun _ => Some {| status := 200; type := "basic"; body := [2] |})
           {[ "/" := {| status := 200; type := "basic"; body := [1] |} ]} "/"
           {| status := 200; type := "basic"; body := [1] |}
           {| status := 200; type := "basic"; body := [2] |});
    reflexivity.
Defined.

Lemma allCacheable_put (storage : CacheStorage) (url : string) (response : Response) :
  cacheable response = true -> allCacheable storage ->
  allCacheable (put storage url response).
Proof.
  intros Hok. unfold allCacheable, CacheStorage, Cache in *.
  induction storage as [| [name0 cache0] rest IH]; intros Hall; cbn [put].
  - intros url' name cache r [[= <- <-] | []] Hr.
    apply lookup_singleton_Some in Hr as [_ <-]. exact Hok.
  - destruct (String.eqb name0 CACHE_NAME).
    + intros url' name cache r [[= <- <-] | Hin] Hr.
      * apply lookup_insert_Some in Hr as [[_ <-] | [_ Hr]]; [exact Hok |].
        apply (Hall url' name0 cache0 r); [now left | exact Hr].
      * apply (Hall url' name cache r); [now right | exact Hr].
    + intros url' name cache r [[= <- <-] | Hin] Hr.
      * apply (Hall url' name0 cache0 r); [now left | exact Hr].
      * apply (IH (fun u n c r' Hin' => Hall u n c r' (or_intror Hin')) url' name cache r Hin Hr).
Qed.

(** The fetch handler stores nothing but responses of status 200 and type
    basic: error pages and answers from other origins are handed on and
    never cached. *)
Theorem only_good_responses_cached (network : string -> option Response)
    (storage : CacheStorage) (url : string) :
  allCacheable storage -> allCacheable (snd (fetchHandler network storage url)).
Proof.
  intros Hall. unfold fetchHandler.
  destruct (cachesMatch storage url) as [cached |]; cbn [snd];
    destruct (network url) as [response |]; try exact Hall;
    destruct (cacheable response) eqn:Hok; cbn [negb snd]; try exact Hall;
    now apply allCacheable_put.
Qed.

Lemma only_good_responses_cached_witness :
  allCacheable
    (snd (fetchHandler (fun _ => Some {| status := 404; type := "basic"; body := [] |})
            [] "/missing.png")).
Proof.
  apply (only_good_responses_cached
           (fun _ => Some {| status := 404; type := "basic"; body := [] |}) [] "/missing.png").
  intros url name cache r [].
Defined.

End ServiceWorkerFacts.
